(** * Character controller of src/main.js: physics, collision and animation

    A shallow embedding of the per-frame controller loop of [src/main.js]
    (gravity and jump integration, support detection, horizontal blocking,
    the key handlers and the animation selection), followed by the
    properties of the specification that were checked against it.

    JavaScript numbers are IEEE 754 binary64 values: they are modelled by
    Rocq's primitive floats, whose operations are the binary64 ones, so that
    every arithmetic expression of the source evaluates here to the value it
    has in the browser.  The module-level [let] variables of the source form
    the record [Game]; functions that read and write them are computations
    in the monad [JS], which threads the globals and records an uncaught
    [TypeError] together with the state reached when it was raised. *)

From Stdlib Require Import PrimFloat Bool List.
From stdpp Require Import base option list gmap strings.

Set Warnings "-inexact-float".

(** ** The parts of three.js the controller uses *)

Module Math.
(** [Math.PI], the binary64 value closest to pi. *)
Definition PI : float := 0x1.921fb54442d18p+1%float.
End Math.

Module THREE.

Record Vector3 := mkVector3 { x : float; y : float; z : float }.

(** [Box3]: an axis-aligned box given by its two extreme corners. *)
Record Box3 := mkBox3 { min : Vector3; max : Vector3 }.

(** An [Object3D] as far as the controller reads and writes it.  The
    scale is set once and never read again. *)
Record Object3D := mkObject3D { position : Vector3; rotation_y : float }.

Definition set_x (v : float) (p : Vector3) : Vector3 := mkVector3 v (y p) (z p).
Definition set_y (v : float) (p : Vector3) : Vector3 := mkVector3 (x p) v (z p).

Definition set_position_x (v : float) (o : Object3D) : Object3D :=
  mkObject3D (set_x v (position o)) (rotation_y o).
Definition set_position_y (v : float) (o : Object3D) : Object3D :=
  mkObject3D (set_y v (position o)) (rotation_y o).
Definition set_rotation_y (v : float) (o : Object3D) : Object3D :=
  mkObject3D (position o) v.

(** JavaScript [a >= b] on numbers; false as soon as one side is NaN,
    like [b <= a]. *)
Definition geb (a b : float) : bool := PrimFloat.leb b a.

(** Overlap of the two boxes along one axis. *)
Definition overlapsX (a b : Box3) : bool :=
  geb (x (max b)) (x (min a)) && PrimFloat.leb (x (min b)) (x (max a)).
Definition overlapsY (a b : Box3) : bool :=
  geb (y (max b)) (y (min a)) && PrimFloat.leb (y (min b)) (y (max a)).
Definition overlapsZ (a b : Box3) : bool :=
  geb (z (max b)) (z (min a)) && PrimFloat.leb (z (min b)) (z (max a)).

(** [Box3.intersectsBox]:
    box.max.x >= this.min.x && box.min.x <= this.max.x &&
    box.max.y >= this.min.y && box.min.y <= this.max.y &&
    box.max.z >= this.min.z && box.min.z <= this.max.z *)
Definition intersectsBox (this box : Box3) : bool :=
  overlapsX this box && overlapsY this box && overlapsZ this box.

Definition add (a b : Vector3) : Vector3 :=
  mkVector3 (x a + x b)%float (y a + y b)%float (z a + z b)%float.

(** [Box3.translate(offset)]: both corners move by [offset]. *)
Definition translate (offset : Vector3) (b : Box3) : Box3 :=
  mkBox3 (add (min b) offset) (add (max b) offset).

End THREE.

Import THREE (Vector3, Box3, Object3D).

(** ** Module-level state *)

(** The three [AnimationAction] objects that [mixer.clipAction] creates.
    Actions are compared by identity in the source. *)
Inductive Action := IdleClip | RunClip | JumpClip.

#[global] Instance Action_eq_dec : EqDecision Action.
Proof. solve_decision. Defined.

(** What the controller asks of the animation mixer. *)
Inductive MixerCall := Play (a : Action) | Stop (a : Action).

#[global] Instance MixerCall_eq_dec : EqDecision MixerCall.
Proof. solve_decision. Defined.

(** The globals declared at the top of main.js.  A variable that is still
    [undefined] is [None].  [obstacles] and [ground] hold the world boxes
    of the static meshes ([new THREE.Box3().setFromObject(obstacle)] returns
    the same box at every call, the meshes never move).  [calls] is the
    sequence of [play()] and [stop()] calls issued so far, oldest first. *)
Record Game := mkGame {
  character : option Object3D;
  mixer : bool;
  currentAction : option Action;
  idleAction : option Action;
  runAction : option Action;
  jumpAction : option Action;
  keysPressed : gmap string bool;
  isJumping : bool;
  velocity : float;
  ground : Box3;
  obstacles : list Box3;
  calls : list MixerCall
}.

Definition gravity : float := (-9.8)%float.
Definition jumpSpeed : float := 5%float.

Definition with_character (c : option Object3D) (g : Game) : Game :=
  mkGame c (mixer g) (currentAction g) (idleAction g) (runAction g)
    (jumpAction g) (keysPressed g) (isJumping g) (velocity g) (ground g)
    (obstacles g) (calls g).
Definition with_mixer (m : bool) (g : Game) : Game :=
  mkGame (character g) m (currentAction g) (idleAction g) (runAction g)
    (jumpAction g) (keysPressed g) (isJumping g) (velocity g) (ground g)
    (obstacles g) (calls g).
Definition with_currentAction (a : option Action) (g : Game) : Game :=
  mkGame (character g) (mixer g) a (idleAction g) (runAction g)
    (jumpAction g) (keysPressed g) (isJumping g) (velocity g) (ground g)
    (obstacles g) (calls g).
Definition with_idleAction (a : option Action) (g : Game) : Game :=
  mkGame (character g) (mixer g) (currentAction g) a (runAction g)
    (jumpAction g) (keysPressed g) (isJumping g) (velocity g) (ground g)
    (obstacles g) (calls g).
Definition with_runAction (a : option Action) (g : Game) : Game :=
  mkGame (character g) (mixer g) (currentAction g) (idleAction g) a
    (jumpAction g) (keysPressed g) (isJumping g) (velocity g) (ground g)
    (obstacles g) (calls g).
Definition with_jumpAction (a : option Action) (g : Game) : Game :=
  mkGame (character g) (mixer g) (currentAction g) (idleAction g)
    (runAction g) a (keysPressed g) (isJumping g) (velocity g) (ground g)
    (obstacles g) (calls g).
Definition with_keysPressed (k : gmap string bool) (g : Game) : Game :=
  mkGame (character g) (mixer g) (currentAction g) (idleAction g)
    (runAction g) (jumpAction g) k (isJumping g) (velocity g) (ground g)
    (obstacles g) (calls g).
Definition with_isJumping (b : bool) (g : Game) : Game :=
  mkGame (character g) (mixer g) (currentAction g) (idleAction g)
    (runAction g) (jumpAction g) (keysPressed g) b (velocity g) (ground g)
    (obstacles g) (calls g).
Definition with_velocity (v : float) (g : Game) : Game :=
  mkGame (character g) (mixer g) (currentAction g) (idleAction g)
    (runAction g) (jumpAction g) (keysPressed g) (isJumping g) v (ground g)
    (obstacles g) (calls g).
Definition with_ground (b : Box3) (g : Game) : Game :=
  mkGame (character g) (mixer g) (currentAction g) (idleAction g)
    (runAction g) (jumpAction g) (keysPressed g) (isJumping g) (velocity g)
    b (obstacles g) (calls g).
Definition with_calls (l : list MixerCall) (g : Game) : Game :=
  mkGame (character g) (mixer g) (currentAction g) (idleAction g)
    (runAction g) (jumpAction g) (keysPressed g) (isJumping g) (velocity g)
    (ground g) (obstacles g) l.

(** ** Computations over the globals *)

(** How a call ends: normally with a value, or by an uncaught [TypeError]
    (a property read or a method call on [undefined]). *)
Inductive completion (A : Type) :=
| Return (a : A)
| TypeError.
Arguments Return {A} a.
Arguments TypeError {A}.

(** A computation takes the globals and gives its completion with the
    globals as it left them; what was written before a throw stays
    written. *)
Definition JS (A : Type) : Type := Game -> completion A * Game.

Definition js_ret {A} (a : A) : JS A := fun g => (Return a, g).

Definition js_bind {A B} (m : JS A) (k : A -> JS B) : JS B :=
  fun g =>
    match m g with
    | (Return a, g') => k a g'
    | (TypeError, g') => (TypeError, g')
    end.

Definition throwTypeError {A} : JS A := fun g => (TypeError, g).
Definition get {A} (f : Game -> A) : JS A := fun g => (Return (f g), g).
Definition modify (f : Game -> Game) : JS unit := fun g => (Return tt, f g).

#[global] Instance JS_ret : MRet JS := @js_ret.
#[global] Instance JS_bind : MBind JS := fun A B k m => js_bind m k.

(** [if (b) m] without an else branch. *)
Definition when (b : bool) (m : JS unit) : JS unit :=
  if b then m else mret tt.

(** Globals as the callers find them after a call, whatever its completion. *)
Definition globalsAfter {A} (m : JS A) (g : Game) : Game := snd (m g).

(** [keysPressed[k]] read as a condition: [undefined] is falsy. *)
Definition pressed (k : string) (g : Game) : bool :=
  default false (keysPressed g !! k).

(** [character.<...>]: reading through the global throws while the model
    has not been loaded. *)
Definition theCharacter : JS Object3D :=
  fun g => match character g with
           | Some c => (Return c, g)
           | None => (TypeError, g)
           end.

(** An assignment through the global, [character.position.y = ...] or
    [character.rotation.y = ...]: the object is updated in place, and the
    access throws while [character] is undefined. *)
Definition assignCharacter (f : Object3D -> Object3D) : JS unit :=
  fun g => match character g with
           | Some c => (Return tt, with_character (Some (f c)) g)
           | None => (TypeError, g)
           end.

(** [action.play()] and [action.stop()] on a possibly undefined reference. *)
Definition play (action : option Action) : JS unit :=
  match action with
  | Some a => modify (fun g => with_calls (calls g ++ [Play a]) g)
  | None => throwTypeError
  end.

Definition stop (action : option Action) : JS unit :=
  match action with
  | Some a => modify (fun g => with_calls (calls g ++ [Stop a]) g)
  | None => throwTypeError
  end.

(** ** Animation selection (main.js 154-192) *)

(** function setAction(action) *)
Definition setAction (action : option Action) : JS unit :=
  cur ← get currentAction;
  if decide (cur <> action) then
    when (bool_decide (is_Some cur)) (stop cur) ;;
    play action ;;
    modify (with_currentAction action)
  else mret tt.

(** function updateCharacterDirection() *)
Definition updateCharacterDirection : JS unit :=
  ch ← get character;
  when (bool_decide (is_Some ch))
    (left ← get (pressed "ArrowLeft");
     if (left : bool) then
       assignCharacter (THREE.set_rotation_y (- Math.PI / 2)%float)
     else
       right ← get (pressed "ArrowRight");
       when right (assignCharacter (THREE.set_rotation_y (Math.PI / 2)%float))).

(** function switchAnimation() *)
Definition switchAnimation : JS unit :=
  ch ← get character;
  m ← get mixer;
  jumping ← get isJumping;
  when (bool_decide (is_Some ch) && m && negb jumping)
    (left ← get (pressed "ArrowLeft");
     right ← get (pressed "ArrowRight");
     if left || right then
       run ← get runAction;
       setAction run
     else
       idle ← get idleAction;
       setAction idle).

(** function initiateJump() *)
Definition initiateJump : JS unit :=
  modify (with_isJumping true) ;;
  modify (with_velocity jumpSpeed) ;;
  cur ← get currentAction;
  jump ← get jumpAction;
  when (bool_decide (cur <> jump)) (setAction jump).

(** ** Key handlers (main.js 128-152) *)

(** function onKeyDown(event), with [key] for [event.key] *)
Definition onKeyDown (key : string) : JS unit :=
  modify (fun g => with_keysPressed (<[key := true]> (keysPressed g)) g) ;;
  jumping ← get isJumping;
  when (bool_decide (key = "ArrowUp") && negb jumping) initiateJump ;;
  when (bool_decide (key = "ArrowLeft") || bool_decide (key = "ArrowRight"))
    (switchAnimation ;; updateCharacterDirection).

(** function onKeyUp(event) *)
Definition onKeyUp (key : string) : JS unit :=
  modify (fun g => with_keysPressed (<[key := false]> (keysPressed g)) g) ;;
  updateCharacterDirection ;;
  left ← get (pressed "ArrowLeft");
  right ← get (pressed "ArrowRight");
  jumping ← get isJumping;
  idle ← get idleAction;
  when (negb left && negb right && negb jumping) (setAction idle).

(** ** Physics (main.js 194-270) *)

Section Physics.

(** [new THREE.Box3().setFromObject(character)]: the world-space bounding
    box of the character model.  It depends on the geometry of the loaded
    FBX asset, which is not part of the program text. *)
Variable setFromObject : Object3D -> Box3.

(** The condition under which the [forEach] callback of [applyGravity]
    takes an obstacle as support (main.js 204-208). *)
Definition supports (characterBox : Box3) (velocity delta : float)
    (obstacleBox : Box3) : bool :=
  THREE.intersectsBox characterBox obstacleBox
  && THREE.geb (THREE.y (THREE.min characterBox) - velocity * delta)%float
               (THREE.y (THREE.max obstacleBox))
  && PrimFloat.leb (THREE.y (THREE.min characterBox))
                   (THREE.y (THREE.max obstacleBox)).

(** [obstacles.forEach(obstacle => ...)] of [applyGravity], with the
    local [isSupported] passed along.  [forEach] visits every element:
    there is no way to leave the loop early. *)
Fixpoint forEachObstacle (characterBox : Box3) (delta : float)
    (obs : list Box3) (isSupported : bool) : JS bool :=
  match obs with
  | [] => mret isSupported
  | obstacleBox :: rest =>
      v ← get velocity;
      if supports characterBox v delta obstacleBox then
        assignCharacter (THREE.set_position_y (THREE.y (THREE.max obstacleBox))) ;;
        forEachObstacle characterBox delta rest true
      else forEachObstacle characterBox delta rest isSupported
  end.

(** The ground check that follows the loop (main.js 213-218). *)
Definition checkGround (characterBox : Box3) (isSupported : bool) : JS bool :=
  groundBox ← get ground;
  c ← theCharacter;
  if PrimFloat.leb (THREE.y (THREE.min characterBox)) (THREE.y (THREE.max groundBox))
     && PrimFloat.leb (THREE.y (THREE.position c)) 0
  then assignCharacter (THREE.set_position_y 0) ;; mret true
  else mret isSupported.

(** The support detection of [applyGravity] (main.js 198-218): the value
    of [isSupported] when the last [if] is reached. *)
Definition findSupport (characterBox : Box3) (delta : float) : JS bool :=
  obs ← get obstacles;
  isSupported ← forEachObstacle characterBox delta obs false;
  checkGround characterBox isSupported.

(** function applyGravity(delta) *)
Definition applyGravity (delta : float) : JS unit :=
  ch ← get character;
  match ch with
  | None => mret tt
  | Some c0 =>
      let characterBox := setFromObject c0 in
      isSupported ← findSupport characterBox delta;
      if negb isSupported then
        modify (fun g => with_velocity (velocity g + gravity * delta)%float g) ;;
        v ← get velocity;
        assignCharacter
          (fun c => THREE.set_position_y
                      (THREE.y (THREE.position c) + v * delta)%float c)
      else
        modify (with_isJumping false) ;;
        modify (with_velocity 0%float) ;;
        switchAnimation
  end.

(** function checkHorizontalCollision(nextX) *)
Definition checkHorizontalCollision (nextX : float) : JS bool :=
  ch ← get character;
  match ch with
  | None => mret false
  | Some c =>
      let characterBox := setFromObject c in
      let nextCharacterBox :=
        THREE.translate
          (THREE.mkVector3 (nextX - THREE.x (THREE.position c))%float 0 0)
          characterBox in
      obs ← get obstacles;
      mret (existsb (THREE.intersectsBox nextCharacterBox) obs)
  end.

(** function animate(), for the [delta] the clock returned.  Scheduling
    the next frame, advancing the mixer and rendering do not touch the
    globals of the controller. *)
Definition animate (delta : float) : JS unit :=
  applyGravity delta ;;
  left ← get (pressed "ArrowLeft");
  when left
    (c ← theCharacter;
     blocked ← checkHorizontalCollision (THREE.x (THREE.position c) - 5 * delta)%float;
     when (negb blocked)
       (assignCharacter
          (fun c => THREE.set_position_x
                      (THREE.x (THREE.position c) - 5 * delta)%float c))) ;;
  right ← get (pressed "ArrowRight");
  when right
    (c ← theCharacter;
     blocked ← checkHorizontalCollision (THREE.x (THREE.position c) + 5 * delta)%float;
     when (negb blocked)
       (assignCharacter
          (fun c => THREE.set_position_x
                      (THREE.x (THREE.position c) + 5 * delta)%float c))).

End Physics.

(** ** Scene set-up and asset loading (main.js 53-122) *)

(** function createObstacles(): five boxes of size 2 x 1 x 1 centred at
    (i * 5 - 10, 0, 0), given by their world boxes. *)
Definition obstacleAt (i : float) : Box3 :=
  let cx := (i * 5 - 10)%float in
  THREE.mkBox3 (THREE.mkVector3 (cx - 1) (-0.5) (-0.5))%float
               (THREE.mkVector3 (cx + 1) 0.5 0.5)%float.

Definition createObstacles : list Box3 :=
  map obstacleAt [0%float; 1%float; 2%float; 3%float; 4%float].

(** The globals when [init()] has run and no asset has arrived yet.
    [groundBox] is the world box of the mesh that [createGround] returns. *)
Definition initialGame (groundBox : Box3) : Game :=
  {| character := None; mixer := false; currentAction := None;
     idleAction := None; runAction := None; jumpAction := None;
     keysPressed := ∅; isJumping := false; velocity := 0%float;
     ground := groundBox; obstacles := createObstacles; calls := [] |}.

(** The callback of [loader.load] in [loadModel]. *)
Definition onModelLoaded : JS unit :=
  modify (with_character
            (Some (THREE.mkObject3D (THREE.mkVector3 0 0 0)
                                    (Math.PI / 2)%float))) ;;
  modify (with_mixer true).

(** [mixer.clipAction(...)]: a method call on the global [mixer]. *)
Definition clipAction (a : Action) : JS (option Action) :=
  m ← get mixer;
  if (m : bool) then mret (Some a) else throwTypeError.

(** The three callbacks of [loadAnimations]. *)
Definition onIdleLoaded : JS unit :=
  a ← clipAction IdleClip;
  modify (with_idleAction a) ;;
  idle ← get idleAction;
  play idle ;;
  modify (with_currentAction idle).

Definition onRunLoaded : JS unit :=
  a ← clipAction RunClip;
  modify (with_runAction a).

Definition onJumpLoaded : JS unit :=
  a ← clipAction JumpClip;
  modify (with_jumpAction a).

(** ** The event loop *)

Inductive Event :=
| ModelLoaded
| IdleLoaded
| RunLoaded
| JumpLoaded
| KeyDown (key : string)
| KeyUp (key : string)
| Frame (delta : float).

Section EventLoop.

Variable setFromObject : Object3D -> Box3.

Definition handler (e : Event) : JS unit :=
  match e with
  | ModelLoaded => onModelLoaded
  | IdleLoaded => onIdleLoaded
  | RunLoaded => onRunLoaded
  | JumpLoaded => onJumpLoaded
  | KeyDown key => onKeyDown key
  | KeyUp key => onKeyUp key
  | Frame delta => animate setFromObject delta
  end.

(** An exception that escapes a callback ends that callback only; the
    browser goes on with the globals as they are. *)
Definition dispatch (g : Game) (e : Event) : Game :=
  globalsAfter (handler e) g.

Definition run (es : list Event) (g : Game) : Game :=
  fold_left dispatch es g.

End EventLoop.

(** ** The mixer's view of the actions *)

(** Whether action [a] is playing after the given calls: the last call
    made on [a] decides, and an action never started is not playing.
    Playing means started by [play()] and not stopped by [stop()] since;
    that the one-shot jump clip runs out by itself is not recorded here. *)
Fixpoint isPlaying (a : Action) (cs : list MixerCall) (playing : bool) : bool :=
  match cs with
  | [] => playing
  | Play b :: rest => isPlaying a rest (if decide (b = a) then true else playing)
  | Stop b :: rest => isPlaying a rest (if decide (b = a) then false else playing)
  end.

Definition playingNow (g : Game) (a : Action) : bool :=
  isPlaying a (calls g) false.

(** * Observations and reference functions *)

(** The coordinates of [character.position], when there is a character. *)
Definition positionX (g : Game) : option float :=
  THREE.x <$> (THREE.position <$> character g).

Definition positionY (g : Game) : option float :=
  THREE.y <$> (THREE.position <$> character g).

Definition positionZ (g : Game) : option float :=
  THREE.z <$> (THREE.position <$> character g).

(** When there is a character, its Z coordinate is 0. *)
Definition zPinned (g : Game) : Prop :=
  positionZ g = None \/ positionZ g = Some 0%float.

(** What an unsupported tick does to the globals. *)
Definition fall (delta : float) (c : Object3D) (g : Game) : Game :=
  let v := (velocity g + gravity * delta)%float in
  with_character
    (Some (THREE.set_position_y (THREE.y (THREE.position c) + v * delta)%float c))
    (with_velocity v g).

(** The [stop()] call that [setAction] makes on the current action. *)
Definition stopCurrent (cur : option Action) : list MixerCall :=
  match cur with
  | Some c => [Stop c]
  | None => []
  end.


(** The three clips have been loaded. *)
Definition loaded (g : Game) : Prop :=
  is_Some (idleAction g) /\ is_Some (runAction g) /\ is_Some (jumpAction g).

(** The globals that the animation selection reads and writes. *)
Definition animationView (g : Game)
  : list MixerCall * option Action * option Action * option Action * option Action :=
  (calls g, currentAction g, idleAction g, runAction g, jumpAction g).


(** [keeps f m]: whatever its completion, [m] leaves the observation [f]
    of the globals as it found it. *)
Definition keeps {A B} (f : Game -> B) (m : JS A) : Prop :=
  forall g, f (globalsAfter m g) = f g.

(** The character's bounding box moved along X to where [nextX] would put
    the character: the box that [checkHorizontalCollision] tests. *)
Definition nextCharacterBox (setFromObject : Object3D -> Box3)
    (c : Object3D) (nextX : float) : Box3 :=
  THREE.translate
    (THREE.mkVector3 (nextX - THREE.x (THREE.position c))%float 0 0)
    (setFromObject c).

(** [checkHorizontalCollision] as a function of the globals it reads. *)
Definition blockedAt (setFromObject : Object3D -> Box3) (nextX : float)
    (g : Game) : bool :=
  match character g with
  | Some c =>
      existsb (THREE.intersectsBox (nextCharacterBox setFromObject c nextX))
              (obstacles g)
  | None => false
  end.

(** What the horizontal phase of a frame reads. *)
Definition horizontalView (g : Game) : option float * list Box3 * gmap string bool :=
  (positionX g, obstacles g, keysPressed g).

(** The last obstacle of the list, in list order, that satisfies the
    support condition. *)
Fixpoint lastSupporting (characterBox : Box3) (velocity delta : float)
    (obs : list Box3) : option Box3 :=
  match obs with
  | [] => None
  | o :: rest =>
      match lastSupporting characterBox velocity delta rest with
      | Some o' => Some o'
      | None => if supports characterBox velocity delta o then Some o else None
      end
  end.

(** The result of the support detection, written out. *)
Definition supportFound (characterBox : Box3) (delta : float) (c : Object3D)
    (g : Game) : bool * Game :=
  let hit := lastSupporting characterBox (velocity g) delta (obstacles g) in
  let yAfterLoop :=
    match hit with
    | Some o => THREE.y (THREE.max o)
    | None => THREE.y (THREE.position c)
    end in
  let onGround :=
    PrimFloat.leb (THREE.y (THREE.min characterBox)) (THREE.y (THREE.max (ground g)))
    && PrimFloat.leb yAfterLoop 0 in
  if onGround then (true, with_character (Some (THREE.set_position_y 0 c)) g)
  else match hit with
       | Some o =>
           (true,
            with_character (Some (THREE.set_position_y (THREE.y (THREE.max o)) c)) g)
       | None => (false, g)
       end.

(** * Scenarios *)

(** A box of half extents [h] around the position: the bounding box of a
    model whose geometry is a box centred on its origin. *)
Definition boxAround (h : Vector3) (o : Object3D) : Box3 :=
  let p := THREE.position o in
  THREE.mkBox3
    (THREE.mkVector3 (THREE.x p - THREE.x h) (THREE.y p - THREE.y h)
                     (THREE.z p - THREE.z h))%float
    (THREE.mkVector3 (THREE.x p + THREE.x h) (THREE.y p + THREE.y h)
                     (THREE.z p + THREE.z h))%float.

(** The bounding box used in the scenarios: a cube of side 0.5 centred on
    the position. *)
Definition unitBox : Object3D -> Box3 :=
  boxAround (THREE.mkVector3 0.25 0.25 0.25)%float.

(** A ground box with its top at height 0, as the specification has it. *)
Definition groundAtZero : Box3 :=
  THREE.mkBox3 (THREE.mkVector3 (-50) 0 (-5))%float (THREE.mkVector3 50 0 5)%float.

(** The globals of the scenario: velocity 2, position.y 1, nothing that
    supports the character. *)
Definition airborneScenario : Game :=
  {| character := Some (THREE.mkObject3D (THREE.mkVector3 0 1 0) (Math.PI / 2)%float);
     mixer := true; currentAction := Some JumpClip;
     idleAction := Some IdleClip; runAction := Some RunClip;
     jumpAction := Some JumpClip;
     keysPressed := ∅; isJumping := true; velocity := 2%float;
     ground := groundAtZero; obstacles := [];
     calls := [Play IdleClip; Stop IdleClip; Play JumpClip] |}.

(** The model and the idle clip have arrived, the run clip has not. *)
Definition idleOnly : Game :=
  run unitBox [ModelLoaded; IdleLoaded] (initialGame groundAtZero).

(** Both arrow keys held, character loaded and facing right. *)
Definition bothArrowsHeld : Game :=
  with_keysPressed {[ "ArrowLeft" := true; "ArrowRight" := true ]}
    (run unitBox [ModelLoaded] (initialGame groundAtZero)).

(** A short session: assets arrive, a jump, some frames, a run to the right. *)
Definition session : list Event :=
  [ModelLoaded; IdleLoaded; Frame 0.016%float; KeyDown "ArrowUp";
   Frame 0.016%float; JumpLoaded; KeyDown "ArrowRight"; Frame 0.016%float;
   RunLoaded; Frame 0.5%float; Frame 0.5%float; Frame 0.5%float;
   KeyUp "ArrowRight"; KeyDown "ArrowLeft"; Frame 0.016%float].

(** Everything loaded, the character standing on the ground at [px],
    halfway between two obstacles when [px] is 2.5, with [key] held. *)
Definition standingAt (px : float) (key : string) : Game :=
  {| character := Some (THREE.mkObject3D (THREE.mkVector3 px 0 0) (Math.PI / 2)%float);
     mixer := true; currentAction := Some IdleClip;
     idleAction := Some IdleClip; runAction := Some RunClip;
     jumpAction := Some JumpClip;
     keysPressed := {[ key := true ]}; isJumping := false; velocity := 0%float;
     ground := groundAtZero; obstacles := createObstacles;
     calls := [Play IdleClip] |}.

(** The character standing on the middle obstacle of the scene. *)
Definition onObstacle : Game :=
  {| character := Some (THREE.mkObject3D (THREE.mkVector3 0 0.75 0) (Math.PI / 2)%float);
     mixer := true; currentAction := Some IdleClip;
     idleAction := Some IdleClip; runAction := Some RunClip;
     jumpAction := Some JumpClip;
     keysPressed := ∅; isJumping := false; velocity := 0%float;
     ground := groundAtZero; obstacles := createObstacles;
     calls := [Play IdleClip] |}.

(** A platform between heights 2 and 3, and a character that a fast fall
    has carried from above the platform to below it within one frame. *)
Definition platform : Box3 :=
  THREE.mkBox3 (THREE.mkVector3 (-1) 2 (-0.5))%float (THREE.mkVector3 1 3 0.5)%float.

Definition tunnelled : Game :=
  {| character := Some (THREE.mkObject3D (THREE.mkVector3 0 1.25 0) (Math.PI / 2)%float);
     mixer := true; currentAction := Some JumpClip;
     idleAction := Some IdleClip; runAction := Some RunClip;
     jumpAction := Some JumpClip;
     keysPressed := ∅; isJumping := true; velocity := (-30)%float;
     ground := groundAtZero; obstacles := [platform];
     calls := [Play IdleClip; Stop IdleClip; Play JumpClip] |}.

(** Two overlapping obstacles with tops at 0.5 and 0.75, the lower one
    first in the list, and a character landing on both. *)
Definition lowerBox : Box3 :=
  THREE.mkBox3 (THREE.mkVector3 (-1) (-0.5) (-0.5))%float (THREE.mkVector3 1 0.5 0.5)%float.
Definition upperBox : Box3 :=
  THREE.mkBox3 (THREE.mkVector3 (-1) (-0.5) (-0.5))%float (THREE.mkVector3 1 0.75 0.5)%float.

Definition landingOnTwo : Game :=
  {| character := Some (THREE.mkObject3D (THREE.mkVector3 0 0.65 0) (Math.PI / 2)%float);
     mixer := true; currentAction := Some JumpClip;
     idleAction := Some IdleClip; runAction := Some RunClip;
     jumpAction := Some JumpClip;
     keysPressed := ∅; isJumping := true; velocity := (-5)%float;
     ground := groundAtZero; obstacles := [lowerBox; upperBox];
     calls := [Play IdleClip; Stop IdleClip; Play JumpClip] |}.

(** An obstacle whose top is below the ground's top, and a character that
    has fallen below the ground onto it. *)
Definition sunkenBox : Box3 :=
  THREE.mkBox3 (THREE.mkVector3 (-1) (-1.25) (-0.5))%float
               (THREE.mkVector3 1 (-0.25) 0.5)%float.

Definition landingOnSunken : Game :=
  {| character := Some (THREE.mkObject3D (THREE.mkVector3 0 (-0.3) 0) (Math.PI / 2)%float);
     mixer := true; currentAction := Some JumpClip;
     idleAction := Some IdleClip; runAction := Some RunClip;
     jumpAction := Some JumpClip;
     keysPressed := ∅; isJumping := true; velocity := (-5)%float;
     ground := groundAtZero; obstacles := [sunkenBox];
     calls := [Play IdleClip; Stop IdleClip; Play JumpClip] |}.

(** * Further observations *)

(** Where the character is and which way it faces, when there is one. *)
Definition characterPosition (g : Game) : option Vector3 :=
  THREE.position <$> character g.

Definition characterRotation (g : Game) : option float :=
  THREE.rotation_y <$> character g.

(** The scene that [init()] builds and nothing changes afterwards. *)
Definition world (g : Game) : list Box3 * Box3 := (obstacles g, ground g).

(** The globals in which [applyGravity] calls [switchAnimation] when
    support has been found. *)
Definition landed (characterBox : Box3) (delta : float) (c : Object3D)
    (g : Game) : Game :=
  with_velocity 0%float
    (with_isJumping false (snd (supportFound characterBox delta c g))).

(** The run clip arrives first and is selected before the idle clip
    arrives. *)
Definition runBeforeIdle : list Event :=
  [ModelLoaded; RunLoaded; KeyDown "ArrowRight"; IdleLoaded].

(** The scene of [standingAt] with its obstacles in reverse order. *)
Definition reversedScene (px : float) (key : string) : Game :=
  mkGame (character (standingAt px key)) true (Some IdleClip) (Some IdleClip)
         (Some RunClip) (Some JumpClip) {[ key := true ]} false 0%float
         groundAtZero (rev createObstacles) [Play IdleClip].

(** Which assets have arrived. *)
Definition assetsView (g : Game)
  : bool * bool * option Action * option Action * option Action :=
  (bool_decide (is_Some (character g)), mixer g,
   idleAction g, runAction g, jumpAction g).

(** The mixer exists exactly when the character does, and no clip exists
    without the mixer. *)
Definition assetsInOrder (g : Game) : Prop :=
  (mixer g = true <-> is_Some (character g))
  /\ (is_Some (idleAction g) \/ is_Some (runAction g) \/ is_Some (jumpAction g) ->
      mixer g = true).

(** One horizontal move of [animate]: the character goes to [nextX] unless
    the blocking query says no. *)
Definition moveUnlessBlocked (setFromObject : Object3D -> Box3)
    (nextX : float) (c : Object3D) (g : Game) : Game :=
  if blockedAt setFromObject nextX g then g
  else with_character (Some (THREE.set_position_x nextX c)) g.

(** [standingAt] with both arrow keys held. *)
Definition bothHeldAt (px : float) : Game :=
  with_keysPressed {[ "ArrowLeft" := true; "ArrowRight" := true ]}
    (standingAt px "ArrowLeft").

(** The model and the idle clip have arrived, the run clip has not, and
    ArrowRight has been pressed. *)
Definition runClipMissing : Game :=
  run unitBox [ModelLoaded; IdleLoaded; KeyDown "ArrowRight"]
    (initialGame groundAtZero).

(** The property names of [Object.prototype]: on the plain object
    [keysPressed] these are the keys that are not read as [undefined]
    before they are written, and ["__proto__"] is not even written by an
    assignment of a boolean. *)
Definition objectPrototypeNames : list string :=
  ["__proto__"; "constructor"; "hasOwnProperty"; "isPrototypeOf";
   "propertyIsEnumerable"; "toLocaleString"; "toString"; "valueOf";
   "__defineGetter__"; "__defineSetter__"; "__lookupGetter__";
   "__lookupSetter__"].

(** A key for which the plain object [keysPressed] behaves as a finite
    map. *)
Definition plainKey (key : string) : bool :=
  negb (existsb (String.eqb key) objectPrototypeNames).

(** * Properties *)

(** ** One airborne tick *)

(** Unfolding of the monad operations. *)
Ltac js_unfold :=
  repeat progress
    unfold mbind, mret, JS_bind, JS_ret, js_bind, js_ret, get, modify, when,
      play, stop, throwTypeError, globalsAfter, assignCharacter,
      theCharacter in *.

Lemma forEachObstacle_false characterBox delta obs s g g' :
  forEachObstacle characterBox delta obs s g = (Return false, g') ->
  s = false /\ g' = g.
Proof.
  revert s g; induction obs as [|o rest IH]; intros s g H.
  - js_unfold; simpl in H. by inversion H.
  - simpl in H. js_unfold.
    destruct (supports characterBox (velocity g) delta o).
    + destruct (character g); [|done].
      apply IH in H as [? _]; done.
    + by apply IH in H.
Qed.

Lemma checkGround_false characterBox s g g' :
  checkGround characterBox s g = (Return false, g') ->
  s = false /\ g' = g.
Proof.
  unfold checkGround; js_unfold. intros H.
  destruct (character g) eqn:Hc; [|done].
  destruct (_ && _); [rewrite Hc in H|]; by inversion H.
Qed.

Lemma findSupport_false characterBox delta g g' :
  findSupport characterBox delta g = (Return false, g') -> g' = g.
Proof.
  unfold findSupport; js_unfold. intros H.
  destruct (forEachObstacle _ _ _ _ g) as [[s|] g1] eqn:E; [|done].
  apply checkGround_false in H as [-> ->].
  by apply forEachObstacle_false in E as [_ ->].
Qed.

Lemma applyGravity_unsupported setFromObject delta g c :
  character g = Some c ->
  fst (findSupport (setFromObject c) delta g) = Return false ->
  applyGravity setFromObject delta g = (Return tt, fall delta c g).
Proof.
  intros Hc Hs. unfold applyGravity. js_unfold. rewrite Hc.
  destruct (findSupport _ _ g) as [r g1] eqn:E. simpl in Hs; subst r.
  apply findSupport_false in E as ->. simpl. by rewrite Hc.
Qed.

(** C6, as the specification states it, fails on the scenario: after the
    tick the velocity is not the double -7.8 and position.y is not the
    double -6.8. *)
Lemma C6_not_exact :
  let g := globalsAfter (applyGravity unitBox 1.0%float) airborneScenario in
  velocity g <> (-7.8)%float /\ positionY g <> Some (-6.8)%float.
Proof.
  split; intros H.
  - apply (f_equal (fun v => PrimFloat.eqb v (-7.8)%float)) in H.
    vm_compute in H. discriminate.
  - apply (f_equal (fun o => match o with
                             | Some v => PrimFloat.eqb v (-6.8)%float
                             | None => false
                             end)) in H.
    vm_compute in H. discriminate.
Qed.

(** C6 (amended): an airborne tick with no support found first replaces
    velocity by velocity + gravity * delta and then adds the new velocity
    times delta to position.y (semi-implicit Euler), leaving every other
    global as it was.  With velocity 2, position.y 1, gravity -9.8 and
    delta 1.0 the binary64 results are velocity -7.800000000000001 and
    position.y -6.800000000000001, each within 1e-15 of -7.8 and -6.8. *)
Theorem C6_semi_implicit_euler :
  (forall setFromObject delta g c,
     character g = Some c ->
     fst (findSupport (setFromObject c) delta g) = Return false ->
     applyGravity setFromObject delta g =
       (Return tt,
        with_character
          (Some (THREE.set_position_y
                   (THREE.y (THREE.position c)
                    + (velocity g + gravity * delta) * delta)%float c))
          (with_velocity (velocity g + gravity * delta)%float g)))
  /\ (let g := globalsAfter (applyGravity unitBox 1.0%float) airborneScenario in
      velocity g = (-7.800000000000001)%float
      /\ positionY g = Some (-6.800000000000001)%float
      /\ PrimFloat.leb (abs (velocity g - (-7.8))) 1e-15 = true
      /\ match positionY g with
         | Some py => PrimFloat.leb (abs (py - (-6.8))) 1e-15
         | None => false
         end = true).
Proof.
  split.
  - intros sfo delta g c Hc Hs.
    by rewrite (applyGravity_unsupported sfo delta g c Hc Hs).
  - vm_compute. repeat split; reflexivity.
Qed.

Lemma C6_semi_implicit_euler_witness :
  fst (findSupport (unitBox (THREE.mkObject3D (THREE.mkVector3 0 1 0) (Math.PI / 2)%float))
         1.0%float airborneScenario) = Return false
  /\ applyGravity unitBox 1.0%float airborneScenario =
       (Return tt,
        with_character
          (Some (THREE.mkObject3D
                   (THREE.mkVector3 0 (1 + (2 + gravity * 1.0) * 1.0) 0)%float
                   (Math.PI / 2)%float))
          (with_velocity (2 + gravity * 1.0)%float airborneScenario)).
Proof.
  split; [reflexivity|].
  apply (proj1 C6_semi_implicit_euler unitBox 1.0%float airborneScenario
           (THREE.mkObject3D (THREE.mkVector3 0 1 0) (Math.PI / 2)%float));
    reflexivity.
Defined.

(** ** Animation selection and key handlers *)

Lemma setAction_same (g : Game) (action : option Action) :
  currentAction g = action -> setAction action g = (Return tt, g).
Proof.
  intros H. unfold setAction. js_unfold.
  destruct (decide (currentAction g <> action)); done.
Qed.

Lemma setAction_loaded (g : Game) (a : Action) :
  currentAction g <> Some a ->
  setAction (Some a) g =
    (Return tt,
     with_currentAction (Some a)
       (with_calls (calls g ++ stopCurrent (currentAction g) ++ [Play a]) g)).
Proof.
  intros H. unfold setAction. js_unfold.
  destruct (decide (currentAction g <> Some a)); [|done].
  destruct (currentAction g) as [c|] eqn:E; simpl.
  - unfold with_currentAction, with_calls; simpl. by rewrite <- app_assoc.
  - done.
Qed.

Lemma setAction_undefined (g : Game) (c : Action) :
  currentAction g = Some c ->
  setAction None g = (TypeError, with_calls (calls g ++ [Stop c]) g).
Proof.
  intros H. unfold setAction. js_unfold. rewrite H.
  destruct (decide (Some c <> None)) as [_|n]; [by simpl|by destruct n].
Qed.

(** C3: a key-down of ArrowUp while [isJumping] is true only records the
    key: it completes normally, and velocity, the jumping flag, the
    character, the current action and the mixer calls are what they were.
    Conversely the press starts a jump (flag set, velocity [jumpSpeed])
    whenever the flag was clear, so a jump starts only from a state that is
    not already jumping. *)
Theorem C3_jump_lockout (g : Game) :
  let g' := globalsAfter (onKeyDown "ArrowUp") g in
  (isJumping g = true ->
     onKeyDown "ArrowUp" g
       = (Return tt, with_keysPressed (<["ArrowUp" := true]> (keysPressed g)) g)
     /\ velocity g' = velocity g /\ isJumping g' = isJumping g
     /\ character g' = character g /\ currentAction g' = currentAction g
     /\ calls g' = calls g)
  /\ (isJumping g = false ->
       isJumping g' = true /\ velocity g' = jumpSpeed).
Proof.
  split; intros Hj.
  - assert (E : onKeyDown "ArrowUp" g
       = (Return tt, with_keysPressed (<["ArrowUp" := true]> (keysPressed g)) g)).
    { unfold onKeyDown. js_unfold. simpl. by rewrite Hj. }
    unfold globalsAfter. rewrite E. by simpl.
  - unfold globalsAfter, onKeyDown, initiateJump. js_unfold. simpl. rewrite Hj. simpl.
    destruct (bool_decide (currentAction g <> jumpAction g)); simpl; [|done].
    unfold setAction. js_unfold. simpl.
    destruct (decide (currentAction g <> jumpAction g)); simpl; [|done].
    destruct (currentAction g), (jumpAction g); simpl; done.
Qed.

Lemma C3_jump_lockout_witness :
  let g := with_isJumping true (initialGame (THREE.mkBox3 (THREE.mkVector3 0 0 0) (THREE.mkVector3 0 0 0))) in
  isJumping g = true
  /\ velocity (globalsAfter (onKeyDown "ArrowUp") g) = velocity g.
Proof.
  split; [reflexivity|].
  apply (proj1 (C3_jump_lockout _)). reflexivity.
Defined.

(** C5 (the code fails it): with the idle clip current and playing and the
    run clip still undefined, a key-down of ArrowRight reaches
    [setAction(runAction)], which stops the idle clip and then throws a
    [TypeError] on [action.play()]: no clip is playing afterwards. *)
Theorem C5_unloaded_clip_throws :
  runAction idleOnly = None
  /\ currentAction idleOnly = Some IdleClip
  /\ playingNow idleOnly IdleClip = true
  /\ setAction (runAction idleOnly) idleOnly
       = (TypeError, with_calls [Play IdleClip; Stop IdleClip] idleOnly)
  /\ fst (onKeyDown "ArrowRight" idleOnly) = TypeError
  /\ calls (globalsAfter (onKeyDown "ArrowRight") idleOnly)
       = [Play IdleClip; Stop IdleClip]
  /\ (forall a, playingNow (globalsAfter (onKeyDown "ArrowRight") idleOnly) a = false).
Proof.
  repeat split; try reflexivity.
  intros []; reflexivity.
Qed.

(** *** Exclusive playback *)

Lemma isPlaying_app (a : Action) (l1 l2 : list MixerCall) (p : bool) :
  isPlaying a (l1 ++ l2) p = isPlaying a l2 (isPlaying a l1 p).
Proof.
  revert p; induction l1 as [|[b|b] l1 IH]; intros p; simpl; auto.
Qed.




(** C10: with the character loaded, [updateCharacterDirection] sets
    rotation.y to -Math.PI / 2 whenever ArrowLeft is pressed, also when
    ArrowRight is pressed too; ArrowRight sets Math.PI / 2 only when
    ArrowLeft is not pressed.  The two angles are different numbers. *)
Theorem C10_left_takes_priority (g : Game) (c : Object3D) :
  character g = Some c ->
  (pressed "ArrowLeft" g = true ->
     updateCharacterDirection g
       = (Return tt,
          with_character (Some (THREE.set_rotation_y (- Math.PI / 2)%float c)) g))
  /\ (pressed "ArrowLeft" g = false -> pressed "ArrowRight" g = true ->
       updateCharacterDirection g
         = (Return tt,
            with_character (Some (THREE.set_rotation_y (Math.PI / 2)%float c)) g))
  /\ (- Math.PI / 2)%float <> (Math.PI / 2)%float.
Proof.
  intros Hc. unfold updateCharacterDirection. js_unfold. rewrite Hc. simpl.
  split; [|split].
  - intros ->. by rewrite Hc.
  - intros -> ->. by rewrite Hc.
  - intros H.
    apply (f_equal (fun v => PrimFloat.eqb v (Math.PI / 2)%float)) in H.
    vm_compute in H. discriminate.
Qed.

Lemma C10_left_takes_priority_witness :
  pressed "ArrowLeft" bothArrowsHeld = true
  /\ pressed "ArrowRight" bothArrowsHeld = true
  /\ THREE.rotation_y
       <$> character (globalsAfter updateCharacterDirection bothArrowsHeld)
     = Some (- Math.PI / 2)%float.
Proof.
  split; [reflexivity|]. split; [reflexivity|].
  unfold globalsAfter.
  rewrite (proj1 (C10_left_takes_priority bothArrowsHeld
                    (THREE.mkObject3D (THREE.mkVector3 0 0 0) (Math.PI / 2)%float)
                    eq_refl) eq_refl).
  reflexivity.
Defined.

(** ** What a call leaves alone *)

Section Keeps.

Context {B : Type} (f : Game -> B).

Lemma keeps_ret {A} (a : A) : keeps f (mret a).
Proof. by intros g. Qed.

Lemma keeps_get {A} (h : Game -> A) : keeps f (get h).
Proof. by intros g. Qed.

Lemma keeps_throw {A} : keeps f (@throwTypeError A).
Proof. by intros g. Qed.

Lemma keeps_bind {A C} (m : JS A) (k : A -> JS C) :
  keeps f m -> (forall a, keeps f (k a)) -> keeps f (m ≫= k).
Proof.
  intros Hm Hk g. specialize (Hm g). unfold globalsAfter in *.
  unfold mbind, JS_bind, js_bind.
  destruct (m g) as [[a|] g1]; simpl in *.
  - rewrite <- Hm. apply Hk.
  - done.
Qed.

Lemma keeps_when (b : bool) (m : JS unit) : keeps f m -> keeps f (when b m).
Proof. destruct b; [done|]. intros _. apply keeps_ret. Qed.

Lemma keeps_modify (h : Game -> Game) :
  (forall g, f (h g) = f g) -> keeps f (modify h).
Proof. intros H g. apply H. Qed.

Lemma keeps_theCharacter : keeps f theCharacter.
Proof. intros g. unfold globalsAfter, theCharacter. by destruct (character g). Qed.

Lemma keeps_assignCharacter (h : Object3D -> Object3D) :
  (forall g c, character g = Some c -> f (with_character (Some (h c)) g) = f g) ->
  keeps f (assignCharacter h).
Proof.
  intros H g. unfold globalsAfter, assignCharacter.
  destruct (character g) as [c|] eqn:E; simpl; [by apply H|done].
Qed.

End Keeps.

(** Solves [keeps] goals along the structure of the computation. *)
Ltac keeps_tac :=
  repeat match goal with
    | |- keeps _ (if ?b then _ else _) => destruct b
    | |- keeps _ (match ?o with Some _ => _ | None => _ end) => destruct o
    | |- keeps _ (mbind _ _) => apply keeps_bind; [|intros ?]
    | |- keeps _ (when _ _) => apply keeps_when
    | |- keeps _ (mret _) => apply keeps_ret
    | |- keeps _ (get _) => apply keeps_get
    | |- keeps _ throwTypeError => apply keeps_throw
    | |- keeps _ theCharacter => apply keeps_theCharacter
    | |- keeps _ (modify _) => apply keeps_modify; intros ?
    | |- keeps _ (assignCharacter _) =>
        apply keeps_assignCharacter; intros ? ? ?
    end.

(** *** The vertical phase *)

(** Observations that do not depend on the animation state, on velocity,
    on the jumping flag nor on position.y are untouched by the gravity
    phase of a frame. *)
Section VerticalFrame.

Context {B : Type} (f : Game -> B).
Hypothesis f_calls : forall l g, f (with_calls l g) = f g.
Hypothesis f_currentAction : forall a g, f (with_currentAction a g) = f g.
Hypothesis f_velocity : forall v g, f (with_velocity v g) = f g.
Hypothesis f_isJumping : forall b g, f (with_isJumping b g) = f g.
Hypothesis f_position_y : forall v g c,
  character g = Some c ->
  f (with_character (Some (THREE.set_position_y v c)) g) = f g.

Lemma keeps_play action : keeps f (play action).
Proof. destruct action; simpl; keeps_tac; auto. Qed.

Lemma keeps_stop action : keeps f (stop action).
Proof. destruct action; simpl; keeps_tac; auto. Qed.

Lemma keeps_setAction action : keeps f (setAction action).
Proof.
  unfold setAction. keeps_tac; auto using keeps_play, keeps_stop.
Qed.

Lemma keeps_switchAnimation : keeps f switchAnimation.
Proof. unfold switchAnimation. keeps_tac; apply keeps_setAction. Qed.

Lemma keeps_initiateJump : keeps f initiateJump.
Proof. unfold initiateJump. keeps_tac; auto using keeps_setAction. Qed.

Lemma keeps_forEachObstacle characterBox delta obs s :
  keeps f (forEachObstacle characterBox delta obs s).
Proof.
  revert s; induction obs as [|o rest IH]; intros s; simpl; keeps_tac; auto.
Qed.

Lemma keeps_checkGround characterBox s : keeps f (checkGround characterBox s).
Proof. unfold checkGround. keeps_tac; auto. Qed.

Lemma keeps_findSupport characterBox delta :
  keeps f (findSupport characterBox delta).
Proof.
  unfold findSupport. keeps_tac;
    auto using keeps_forEachObstacle, keeps_checkGround.
Qed.

Lemma keeps_applyGravity setFromObject delta :
  keeps f (applyGravity setFromObject delta).
Proof.
  unfold applyGravity. keeps_tac;
    auto using keeps_findSupport, keeps_switchAnimation.
Qed.

End VerticalFrame.

(** ** The horizontal query *)

Lemma checkHorizontalCollision_spec setFromObject nextX g :
  checkHorizontalCollision setFromObject nextX g
    = (Return (blockedAt setFromObject nextX g), g).
Proof.
  unfold checkHorizontalCollision, blockedAt. js_unfold.
  by destruct (character g).
Qed.

Lemma keeps_checkHorizontalCollision {B} (f : Game -> B) setFromObject nextX :
  keeps f (checkHorizontalCollision setFromObject nextX).
Proof.
  intros g. unfold globalsAfter. by rewrite checkHorizontalCollision_spec.
Qed.

(** ** The Z coordinate *)

Lemma positionZ_assign (h : Object3D -> Object3D) :
  (forall c, THREE.z (THREE.position (h c)) = THREE.z (THREE.position c)) ->
  forall g c, character g = Some c ->
    positionZ (with_character (Some (h c)) g) = positionZ g.
Proof. intros H g c E. unfold positionZ. simpl. by rewrite E, H. Qed.

Section KeepsZ.

Variable setFromObject : Object3D -> Box3.

Lemma keepsZ_setAction action : keeps positionZ (setAction action).
Proof. by apply keeps_setAction. Qed.

Lemma keepsZ_switchAnimation : keeps positionZ switchAnimation.
Proof. by apply keeps_switchAnimation. Qed.

Lemma keepsZ_initiateJump : keeps positionZ initiateJump.
Proof. by apply keeps_initiateJump. Qed.

Lemma keepsZ_updateCharacterDirection : keeps positionZ updateCharacterDirection.
Proof.
  unfold updateCharacterDirection. keeps_tac; by apply positionZ_assign.
Qed.

Lemma keepsZ_applyGravity delta :
  keeps positionZ (applyGravity setFromObject delta).
Proof.
  apply keeps_applyGravity; try done.
  intros v g c E. by apply positionZ_assign.
Qed.

Lemma keepsZ_animate delta : keeps positionZ (animate setFromObject delta).
Proof.
  unfold animate. keeps_tac;
    try apply keepsZ_applyGravity;
    try apply keeps_checkHorizontalCollision;
    by apply positionZ_assign.
Qed.

Lemma keepsZ_onKeyDown key : keeps positionZ (onKeyDown key).
Proof.
  unfold onKeyDown. keeps_tac;
    auto using keepsZ_initiateJump, keepsZ_switchAnimation,
      keepsZ_updateCharacterDirection.
Qed.

Lemma keepsZ_onKeyUp key : keeps positionZ (onKeyUp key).
Proof.
  unfold onKeyUp. keeps_tac;
    auto using keepsZ_setAction, keepsZ_updateCharacterDirection.
Qed.

Lemma keepsZ_animationLoaded :
  keeps positionZ onIdleLoaded /\ keeps positionZ onRunLoaded
  /\ keeps positionZ onJumpLoaded.
Proof.
  unfold onIdleLoaded, onRunLoaded, onJumpLoaded, clipAction.
  repeat split; keeps_tac; try done; by apply keeps_play.
Qed.

Lemma dispatch_zPinned g e : zPinned g -> zPinned (dispatch setFromObject g e).
Proof.
  intros H. unfold dispatch.
  destruct e; simpl;
    try (unfold zPinned;
         first [ rewrite (proj1 keepsZ_animationLoaded g)
               | rewrite (proj1 (proj2 keepsZ_animationLoaded) g)
               | rewrite (proj2 (proj2 keepsZ_animationLoaded) g)
               | rewrite keepsZ_onKeyDown
               | rewrite keepsZ_onKeyUp
               | rewrite keepsZ_animate ]; exact H).
  by right.
Qed.

Lemma run_zPinned es g : zPinned g -> zPinned (run setFromObject es g).
Proof.
  revert g; induction es as [|e es IH]; intros g H; simpl; [done|].
  apply IH. by apply dispatch_zPinned.
Qed.

End KeepsZ.

(** C9: the model is placed at Z = 0 when it is loaded, and gravity with
    support detection, a whole frame (gravity and horizontal movement),
    jump initiation, the facing update and both key handlers leave
    position.z as they found it.  So, through any sequence of asset
    arrivals, key events and frames from start-up, the character's Z
    coordinate is 0. *)
Theorem C9_z_is_zero (setFromObject : Object3D -> Box3) :
  (forall g, positionZ (globalsAfter onModelLoaded g) = Some 0%float)
  /\ (forall delta, keeps positionZ (applyGravity setFromObject delta))
  /\ (forall delta, keeps positionZ (animate setFromObject delta))
  /\ keeps positionZ initiateJump
  /\ keeps positionZ updateCharacterDirection
  /\ (forall key, keeps positionZ (onKeyDown key))
  /\ (forall key, keeps positionZ (onKeyUp key))
  /\ (forall groundBox es c,
        character (run setFromObject es (initialGame groundBox)) = Some c ->
        THREE.z (THREE.position c) = 0%float).
Proof.
  repeat split.
  - apply keepsZ_applyGravity.
  - apply keepsZ_animate.
  - apply keepsZ_initiateJump.
  - apply keepsZ_updateCharacterDirection.
  - apply keepsZ_onKeyDown.
  - apply keepsZ_onKeyUp.
  - intros groundBox es c Hc.
    destruct (run_zPinned setFromObject es (initialGame groundBox)) as [H|H].
    + by left.
    + unfold positionZ in H. by rewrite Hc in H.
    + unfold positionZ in H. rewrite Hc in H. simpl in H. congruence.
Qed.

Lemma C9_z_is_zero_witness :
  exists c, character (run unitBox session (initialGame groundAtZero)) = Some c
            /\ THREE.z (THREE.position c) = 0%float.
Proof.
  eexists. split; [vm_compute; reflexivity|].
  apply (proj2 (proj2 (proj2 (proj2 (proj2 (proj2 (proj2
           (C9_z_is_zero unitBox))))))) groundAtZero session).
  vm_compute. reflexivity.
Defined.

(** ** The missing character *)

(** C4 (the code fails it): while [character] is undefined a frame with
    ArrowLeft or ArrowRight held ends in a [TypeError], raised by
    [character.position.x] in the argument of [checkHorizontalCollision];
    only a frame with neither key held passes without an error. *)
Theorem C4_missing_character_throws (setFromObject : Object3D -> Box3)
    (delta : float) (g : Game) :
  character g = None ->
  (pressed "ArrowLeft" g = true \/ pressed "ArrowRight" g = true ->
     animate setFromObject delta g = (TypeError, g))
  /\ (pressed "ArrowLeft" g = false -> pressed "ArrowRight" g = false ->
       animate setFromObject delta g = (Return tt, g)).
Proof.
  intros Hc. unfold animate, applyGravity. js_unfold. rewrite Hc. simpl.
  split.
  - intros [H|H].
    + rewrite H. cbv beta. by rewrite Hc.
    + destruct (pressed "ArrowLeft" g); cbv beta; [by rewrite Hc|].
      rewrite H. cbv beta. by rewrite Hc.
  - intros -> ->. done.
Qed.

Lemma C4_missing_character_throws_witness :
  let g := with_keysPressed {[ "ArrowLeft" := true ]} (initialGame groundAtZero) in
  character g = None
  /\ animate unitBox 0.016%float g = (TypeError, g).
Proof.
  split; [reflexivity|].
  apply (proj1 (C4_missing_character_throws unitBox 0.016%float
                  (with_keysPressed {[ "ArrowLeft" := true ]}
                     (initialGame groundAtZero)) eq_refl)).
  left. reflexivity.
Defined.

(** ** Horizontal movement *)

Lemma applyGravity_horizontalView setFromObject delta :
  keeps horizontalView (applyGravity setFromObject delta).
Proof.
  apply keeps_applyGravity; try done.
  intros v g c E. unfold horizontalView, positionX. simpl. by rewrite E.
Qed.

(** The second half of [animate], after the gravity phase, when exactly one
    arrow key is held: [nextX] is the proposed coordinate. *)
Lemma animate_one_key setFromObject delta g g1 c1 (nextX : float) r :
  applyGravity setFromObject delta g = (r, g1) ->
  character g1 = Some c1 ->
  (pressed "ArrowLeft" g1 = true /\ pressed "ArrowRight" g1 = false
   /\ nextX = (THREE.x (THREE.position c1) - 5 * delta)%float)
  \/ (pressed "ArrowLeft" g1 = false /\ pressed "ArrowRight" g1 = true
      /\ nextX = (THREE.x (THREE.position c1) + 5 * delta)%float) ->
  positionX (globalsAfter (animate setFromObject delta) g)
  = Some (if existsb (THREE.intersectsBox (nextCharacterBox setFromObject c1 nextX))
                     (obstacles g1)
          then THREE.x (THREE.position c1)
          else match r with
               | Return _ => nextX
               | TypeError => THREE.x (THREE.position c1)
               end).
Proof.
  intros Hg Hc Hkeys.
  unfold globalsAfter, animate.
  unfold mbind at 1. unfold JS_bind, js_bind. rewrite Hg.
  destruct r as [[]|]; simpl.
  2:{ unfold positionX. rewrite Hc. simpl. by destruct (existsb _ _). }
  js_unfold.
  destruct Hkeys as [(Hl & Hr & ->)|(Hl & Hr & ->)]; rewrite Hl; cbv beta.
  - rewrite Hc. rewrite checkHorizontalCollision_spec.
    unfold blockedAt, nextCharacterBox. rewrite Hc.
    destruct (existsb _ _); simpl.
    + rewrite Hr. simpl. unfold positionX. by rewrite Hc.
    + rewrite Hc.
      change (pressed "ArrowRight" (with_character ?x g1))
        with (pressed "ArrowRight" g1).
      rewrite Hr. by simpl.
  - rewrite Hr. cbv beta. rewrite Hc. rewrite checkHorizontalCollision_spec.
    unfold blockedAt, nextCharacterBox. rewrite Hc.
    destruct (existsb _ _); simpl.
    + unfold positionX. by rewrite Hc.
    + by rewrite Hc.
Qed.

Lemma gravity_then_character setFromObject delta g c :
  character g = Some c ->
  let g1 := globalsAfter (applyGravity setFromObject delta) g in
  exists c1, character g1 = Some c1
             /\ THREE.x (THREE.position c1) = THREE.x (THREE.position c)
             /\ obstacles g1 = obstacles g
             /\ keysPressed g1 = keysPressed g.
Proof.
  intros Hc g1.
  pose proof (applyGravity_horizontalView setFromObject delta g) as H.
  fold g1 in H. unfold horizontalView, positionX in H. rewrite Hc in H.
  injection H as Hx Ho Hk.
  destruct (character g1) as [c1|]; [|done].
  exists c1. simpl in Hx. by injection Hx as Hx.
Qed.

Lemma existsb_intersects (b : Box3) (obs : list Box3) :
  (existsb (THREE.intersectsBox b) obs = true
     <-> exists o, In o obs /\ THREE.intersectsBox b o = true)
  /\ (existsb (THREE.intersectsBox b) obs = false
     <-> forall o, In o obs -> THREE.intersectsBox b o = false).
Proof.
  split; [apply existsb_exists|].
  rewrite <- not_true_iff_false, existsb_exists. split.
  - intros H o Ho. apply not_true_iff_false. intros E. apply H. eauto.
  - intros H (o & Ho & E). by rewrite (H o Ho) in E.
Qed.

Lemma animate_blocking setFromObject delta g c (leftward : bool) :
  character g = Some c ->
  pressed "ArrowLeft" g = leftward ->
  pressed "ArrowRight" g = negb leftward ->
  let g1 := globalsAfter (applyGravity setFromObject delta) g in
  let g2 := globalsAfter (animate setFromObject delta) g in
  let nextX := if leftward
               then (THREE.x (THREE.position c) - 5 * delta)%float
               else (THREE.x (THREE.position c) + 5 * delta)%float in
  exists c1,
    character g1 = Some c1
    /\ THREE.x (THREE.position c1) = THREE.x (THREE.position c)
    /\ ((exists o, In o (obstacles g)
                   /\ THREE.intersectsBox
                        (nextCharacterBox setFromObject c1 nextX) o = true) ->
        positionX g2 = Some (THREE.x (THREE.position c)))
    /\ ((forall o, In o (obstacles g) ->
                   THREE.intersectsBox
                     (nextCharacterBox setFromObject c1 nextX) o = false) ->
        fst (applyGravity setFromObject delta g) = Return tt ->
        positionX g2 = Some nextX).
Proof.
  intros Hc Hl Hr g1 g2 nextX.
  destruct (gravity_then_character setFromObject delta g c Hc)
    as (c1 & Hc1 & Hx & Ho & Hk).
  fold g1 in Hc1, Ho, Hk.
  exists c1. split; [done|]. split; [done|].
  assert (Hpos : positionX g2
    = Some (if existsb (THREE.intersectsBox
                          (nextCharacterBox setFromObject c1 nextX)) (obstacles g1)
            then THREE.x (THREE.position c1)
            else match fst (applyGravity setFromObject delta g) with
                 | Return _ => nextX
                 | TypeError => THREE.x (THREE.position c1)
                 end)).
  { apply (animate_one_key setFromObject delta g g1 c1 nextX); [|done|].
    - unfold g1, globalsAfter. by destruct (applyGravity setFromObject delta g).
    - unfold pressed. rewrite Hk. fold (pressed "ArrowLeft" g).
      fold (pressed "ArrowRight" g). rewrite Hl, Hr, Hx. unfold nextX.
      destruct leftward; [left|right]; done. }
  rewrite Ho in Hpos.
  split.
  - intros Hex. apply existsb_intersects in Hex. by rewrite Hpos, Hex, Hx.
  - intros Hall Hret. apply existsb_intersects in Hall.
    by rewrite Hpos, Hall, Hret.
Qed.

(** ** Support detection *)

Lemma lastSupporting_None characterBox v delta obs :
  lastSupporting characterBox v delta obs = None <->
  forall o, In o obs -> supports characterBox v delta o = false.
Proof.
  induction obs as [|o1 rest IH]; simpl; [by split|].
  destruct (lastSupporting characterBox v delta rest) as [o'|].
  - split; [done|]. intros H. apply IH. intros o Ho. apply H. by right.
  - destruct (supports characterBox v delta o1) eqn:Hs.
    + split; [done|]. intros H.
      specialize (H o1 (or_introl eq_refl)). congruence.
    + split; [|done]. intros _ o [<-|Ho]; [done|]. by apply IH.
Qed.

Lemma lastSupporting_Some characterBox v delta obs o :
  lastSupporting characterBox v delta obs = Some o <->
  exists before after,
    obs = before ++ o :: after
    /\ supports characterBox v delta o = true
    /\ forall o', In o' after -> supports characterBox v delta o' = false.
Proof.
  revert o; induction obs as [|o1 rest IH]; intros o; simpl.
  - split; [done|]. intros ([|? ?] & after & E & _); discriminate E.
  - pose proof (lastSupporting_None characterBox v delta rest) as HN.
    destruct (lastSupporting characterBox v delta rest) as [o'|].
    + split.
      * intros [= <-].
        destruct (proj1 (IH o') eq_refl) as (b & a & -> & Hs & Ha).
        by exists (o1 :: b), a.
      * intros (b & a & E & Hs & Ha).
        destruct b as [|o2 b]; simpl in E; injection E as <- ->.
        -- discriminate (proj2 HN Ha).
        -- apply IH. by exists b, a.
    + split.
      * destruct (supports characterBox v delta o1) eqn:Hs; [|done].
        intros [= <-]. exists [], rest. split; [done|]. split; [done|].
        by apply HN.
      * intros (b & a & E & Hs & Ha).
        destruct b as [|o2 b]; simpl in E; injection E as <- ->.
        -- by rewrite Hs.
        -- assert (None = Some o) as Hno by (apply IH; by exists b, a).
           discriminate Hno.
Qed.

(** The loop over the obstacles: every satisfying obstacle overwrites
    position.y, so the last one decides. *)
Lemma forEachObstacle_spec characterBox delta obs s g c :
  character g = Some c ->
  forEachObstacle characterBox delta obs s g =
    match lastSupporting characterBox (velocity g) delta obs with
    | Some o =>
        (Return true,
         with_character
           (Some (THREE.set_position_y (THREE.y (THREE.max o)) c)) g)
    | None => (Return s, g)
    end.
Proof.
  revert s g c; induction obs as [|o rest IH]; intros s g c Hc; simpl; [done|].
  js_unfold.
  destruct (supports characterBox (velocity g) delta o) eqn:Hs.
  - rewrite Hc.
    rewrite (IH true
               (with_character
                  (Some (THREE.set_position_y (THREE.y (THREE.max o)) c)) g)
               (THREE.set_position_y (THREE.y (THREE.max o)) c) eq_refl).
    simpl. by destruct (lastSupporting _ _ _ rest).
  - rewrite (IH s g c Hc). by destruct (lastSupporting _ _ _ rest).
Qed.

(** The support detection as a whole: the loop, then the ground check. *)
Lemma findSupport_spec characterBox delta g c :
  character g = Some c ->
  findSupport characterBox delta g
    = (Return (fst (supportFound characterBox delta c g)),
       snd (supportFound characterBox delta c g)).
Proof.
  intros Hc. unfold findSupport, supportFound.
  unfold mbind at 1 2. unfold JS_bind, js_bind, get.
  rewrite (forEachObstacle_spec characterBox delta (obstacles g) false g c Hc).
  destruct (lastSupporting characterBox (velocity g) delta (obstacles g)) as [o|];
    unfold checkGround; js_unfold; simpl.
  - destruct (_ && _); reflexivity.
  - rewrite Hc. destruct (_ && _); [by rewrite Hc|reflexivity].
Qed.

(** *** C1: the per-obstacle condition *)

(** C1, as the specification states it, fails: the character's box
    overlaps the platform in X, its bottom one tick back (4) was above the
    platform's top (3) and its bottom now (1) is below it, so (a), (b) and
    (c) hold with (a) read as an X-only test; yet the boxes do not overlap
    in Y, [intersectsBox] is false and no support is granted: the tick
    lets the character fall on. *)
Lemma C1_x_overlap_is_not_enough :
  let characterBox :=
    unitBox (THREE.mkObject3D (THREE.mkVector3 0 1.25 0) (Math.PI / 2)%float) in
  let delta := 0.1%float in
  THREE.overlapsX characterBox platform = true
  /\ THREE.geb (THREE.y (THREE.min characterBox) - velocity tunnelled * delta)%float
               (THREE.y (THREE.max platform)) = true
  /\ PrimFloat.leb (THREE.y (THREE.min characterBox)) (THREE.y (THREE.max platform)) = true
  /\ supports characterBox (velocity tunnelled) delta platform = false
  /\ findSupport characterBox delta tunnelled = (Return false, tunnelled)
  /\ isJumping (globalsAfter (applyGravity unitBox delta) tunnelled) = true.
Proof. vm_compute. repeat split; reflexivity. Qed.

(** C1 (amended): an obstacle grants support exactly when (a) the
    character's box intersects the obstacle's box, that is, overlaps it on
    each of the X, Y and Z axes, (b) the character's bottom edge one tick
    back along the velocity, min.y - velocity * delta, is at or above the
    obstacle's top, and (c) the character's bottom edge is at or below the
    obstacle's top.  The loop over the obstacles reports support exactly
    when some obstacle of the list satisfies this condition. *)
Theorem C1_support_condition :
  (forall characterBox v delta obstacleBox,
     supports characterBox v delta obstacleBox = true <->
     (THREE.overlapsX characterBox obstacleBox = true
      /\ THREE.overlapsY characterBox obstacleBox = true
      /\ THREE.overlapsZ characterBox obstacleBox = true)
     /\ PrimFloat.leb (THREE.y (THREE.max obstacleBox))
                      (THREE.y (THREE.min characterBox) - v * delta)%float = true
     /\ PrimFloat.leb (THREE.y (THREE.min characterBox))
                      (THREE.y (THREE.max obstacleBox)) = true)
  /\ (forall characterBox delta g c,
        character g = Some c ->
        fst (forEachObstacle characterBox delta (obstacles g) false g) = Return true
        <-> exists obstacleBox,
              In obstacleBox (obstacles g)
              /\ supports characterBox (velocity g) delta obstacleBox = true).
Proof.
  split.
  - intros characterBox v delta obstacleBox.
    unfold supports, THREE.intersectsBox, THREE.geb.
    rewrite !andb_true_iff. tauto.
  - intros characterBox delta g c Hc.
    rewrite (forEachObstacle_spec characterBox delta (obstacles g) false g c Hc).
    destruct (lastSupporting characterBox (velocity g) delta (obstacles g))
      as [o|] eqn:El; simpl.
    + split; [|done]. intros _.
      apply lastSupporting_Some in El as (b & a & E & Hs & _).
      exists o. split; [|done]. rewrite E. apply in_or_app. right. by left.
    + split; [done|]. intros (o & Ho & Hs).
      rewrite (proj1 (lastSupporting_None _ _ _ _) El o Ho) in Hs. done.
Qed.

Lemma C1_support_condition_witness :
  exists obstacleBox,
    In obstacleBox (obstacles onObstacle)
    /\ supports
         (unitBox (THREE.mkObject3D (THREE.mkVector3 0 0.75 0) (Math.PI / 2)%float))
         (velocity onObstacle) 0.016%float obstacleBox = true.
Proof.
  apply (proj2 C1_support_condition
           (unitBox (THREE.mkObject3D (THREE.mkVector3 0 0.75 0) (Math.PI / 2)%float))
           0.016%float onObstacle
           (THREE.mkObject3D (THREE.mkVector3 0 0.75 0) (Math.PI / 2)%float)
           eq_refl).
  vm_compute. reflexivity.
Defined.

(** *** C2: order of evaluation *)

(** C2, as the specification states it, fails twice.  With two obstacles
    that both satisfy the support condition the character is put on the
    top of the second one (0.75), not of the first (0.5).  And the ground
    is checked although an obstacle has granted support: the character
    that the sunken obstacle supports (top -0.25) ends at height 0. *)
Lemma C2_first_match_does_not_win :
  let delta := 0.1%float in
  (let characterBox :=
     unitBox (THREE.mkObject3D (THREE.mkVector3 0 0.65 0) (Math.PI / 2)%float) in
   supports characterBox (velocity landingOnTwo) delta lowerBox = true
   /\ supports characterBox (velocity landingOnTwo) delta upperBox = true
   /\ positionY (globalsAfter (applyGravity unitBox delta) landingOnTwo)
      = Some 0.75%float
   /\ PrimFloat.eqb 0.75 (THREE.y (THREE.max lowerBox)) = false)
  /\ (let characterBox :=
        unitBox (THREE.mkObject3D (THREE.mkVector3 0 (-0.3) 0) (Math.PI / 2)%float) in
      supports characterBox (velocity landingOnSunken) delta sunkenBox = true
      /\ positionY (globalsAfter (applyGravity unitBox delta) landingOnSunken)
         = Some 0%float
      /\ PrimFloat.eqb 0 (THREE.y (THREE.max sunkenBox)) = false).
Proof. vm_compute. repeat split; reflexivity. Qed.

(** C2 (amended): the loop evaluates every obstacle in list order against
    the box taken before the loop, and each obstacle that satisfies the
    support condition overwrites position.y with its top: the last such
    obstacle of the list gives the height after the loop.  The ground is
    then checked in every case, with position.y as the loop left it: when
    the character's bottom is at or below the ground's top and position.y
    is at or below zero, support is granted and position.y becomes 0,
    also over an obstacle's snap.  Support is granted exactly when an
    obstacle satisfies the condition or the ground check passes. *)
Theorem C2_last_obstacle_then_ground (characterBox : Box3) (delta : float)
    (g : Game) (c : Object3D) :
  character g = Some c ->
  findSupport characterBox delta g
    = (Return (fst (supportFound characterBox delta c g)),
       snd (supportFound characterBox delta c g))
  /\ (forall o,
        lastSupporting characterBox (velocity g) delta (obstacles g) = Some o <->
        exists before after,
          obstacles g = before ++ o :: after
          /\ supports characterBox (velocity g) delta o = true
          /\ forall o', In o' after ->
                        supports characterBox (velocity g) delta o' = false)
  /\ (lastSupporting characterBox (velocity g) delta (obstacles g) = None <->
      forall o, In o (obstacles g) ->
                supports characterBox (velocity g) delta o = false).
Proof.
  intros Hc. split; [|split].
  - by apply findSupport_spec.
  - intros o. apply lastSupporting_Some.
  - apply lastSupporting_None.
Qed.

Lemma C2_last_obstacle_then_ground_witness :
  findSupport
    (unitBox (THREE.mkObject3D (THREE.mkVector3 0 0.65 0) (Math.PI / 2)%float))
    0.1%float landingOnTwo
  = (Return true,
     with_character
       (Some (THREE.mkObject3D (THREE.mkVector3 0 0.75 0) (Math.PI / 2)%float))
       landingOnTwo).
Proof.
  rewrite (proj1 (C2_last_obstacle_then_ground
                    (unitBox (THREE.mkObject3D (THREE.mkVector3 0 0.65 0)
                                               (Math.PI / 2)%float))
                    0.1%float landingOnTwo
                    (THREE.mkObject3D (THREE.mkVector3 0 0.65 0) (Math.PI / 2)%float)
                    eq_refl)).
  vm_compute. reflexivity.
Defined.

(** ** Exclusive playback *)




(** ** The gravity phase completes in the steady state *)

Lemma setAction_returns (a : Action) (g : Game) :
  fst (setAction (Some a) g) = Return tt.
Proof.
  destruct (decide (currentAction g = Some a)) as [E|E].
  - by rewrite (setAction_same g (Some a) E).
  - by rewrite (setAction_loaded g a E).
Qed.

Lemma switchAnimation_returns (g : Game) :
  loaded g -> fst (switchAnimation g) = Return tt.
Proof.
  intros ([i Hi] & [r Hr] & _). unfold switchAnimation. js_unfold.
  destruct (_ && _ && _); [|done].
  destruct (_ || _); rewrite ?Hi, ?Hr; apply setAction_returns.
Qed.

Lemma applyGravity_returns setFromObject delta g :
  loaded g -> fst (applyGravity setFromObject delta g) = Return tt.
Proof.
  intros Hl. unfold applyGravity.
  unfold mbind at 1. unfold JS_bind, js_bind, get.
  destruct (character g) as [c|] eqn:Hc; [|done].
  unfold mbind at 1. unfold JS_bind, js_bind.
  rewrite (findSupport_spec (setFromObject c) delta g c Hc).
  assert (Hg' : exists c', character (snd (supportFound (setFromObject c) delta c g))
                           = Some c').
  { unfold supportFound. destruct (_ && _); [by eexists|].
    destruct (lastSupporting _ _ _ _); by eexists. }
  assert (Hl' : loaded (snd (supportFound (setFromObject c) delta c g))).
  { unfold supportFound. destruct (_ && _); [done|].
    by destruct (lastSupporting _ _ _ _). }
  destruct Hg' as [c' Hc'].
  destruct (fst (supportFound (setFromObject c) delta c g)); simpl.
  - js_unfold. by apply switchAnimation_returns.
  - js_unfold. simpl. by rewrite Hc'.
Qed.

(** In a frame with exactly one of ArrowLeft and ArrowRight held and
    the character loaded, let the proposed coordinate be x - 5 * delta
    (left) or x + 5 * delta (right), and take the character's bounding box
    as it is after the gravity phase of that frame, moved along X by the
    proposed coordinate minus x.  If that box intersects some obstacle box,
    position.x after the frame is x; if it intersects none and the gravity
    phase has completed, position.x is the proposed coordinate.  The
    gravity phase completes whenever the three clips are loaded.  The query
    [checkHorizontalCollision] leaves the globals untouched, and its answer
    does not depend on the ground. *)
Theorem horizontal_blocking_after_gravity (setFromObject : Object3D -> Box3) :
  (forall delta g c (leftward : bool),
     character g = Some c ->
     pressed "ArrowLeft" g = leftward ->
     pressed "ArrowRight" g = negb leftward ->
     let g1 := globalsAfter (applyGravity setFromObject delta) g in
     let g2 := globalsAfter (animate setFromObject delta) g in
     let nextX := if leftward
                  then (THREE.x (THREE.position c) - 5 * delta)%float
                  else (THREE.x (THREE.position c) + 5 * delta)%float in
     exists c1,
       character g1 = Some c1
       /\ THREE.x (THREE.position c1) = THREE.x (THREE.position c)
       /\ ((exists o, In o (obstacles g)
                      /\ THREE.intersectsBox
                           (nextCharacterBox setFromObject c1 nextX) o = true) ->
           positionX g2 = Some (THREE.x (THREE.position c)))
       /\ ((forall o, In o (obstacles g) ->
                      THREE.intersectsBox
                        (nextCharacterBox setFromObject c1 nextX) o = false) ->
           fst (applyGravity setFromObject delta g) = Return tt ->
           positionX g2 = Some nextX))
  /\ (forall delta g,
        loaded g -> fst (applyGravity setFromObject delta g) = Return tt)
  /\ (forall nextX g,
        globalsAfter (checkHorizontalCollision setFromObject nextX) g = g)
  /\ (forall nextX groundBox g,
        fst (checkHorizontalCollision setFromObject nextX (with_ground groundBox g))
        = fst (checkHorizontalCollision setFromObject nextX g)).
Proof.
  split; [|split; [|split]].
  - intros delta g c leftward. apply animate_blocking.
  - intros delta g. apply applyGravity_returns.
  - intros nextX g. unfold globalsAfter.
    by rewrite checkHorizontalCollision_spec.
  - intros nextX groundBox g. by rewrite !checkHorizontalCollision_spec.
Qed.

Lemma horizontal_blocking_after_gravity_witness :
  positionX (globalsAfter (animate unitBox 0.125%float) (standingAt 2.5 "ArrowRight"))
    = Some 3.125%float
  /\ positionX (globalsAfter (animate unitBox 0.125%float) (standingAt 1.5 "ArrowLeft"))
    = Some 1.5%float.
Proof.
  split.
  - destruct (proj1 (horizontal_blocking_after_gravity unitBox) 0.125%float
                (standingAt 2.5 "ArrowRight")
                (THREE.mkObject3D (THREE.mkVector3 2.5 0 0) (Math.PI / 2)%float)
                false eq_refl eq_refl eq_refl) as (c1 & Hc1 & _ & _ & Hfree).
    vm_compute in Hc1. injection Hc1 as <-.
    rewrite Hfree; [reflexivity| |reflexivity].
    intros o Ho. simpl in Ho.
    repeat (destruct Ho as [<-|Ho]; [vm_compute; reflexivity|]).
    destruct Ho.
  - destruct (proj1 (horizontal_blocking_after_gravity unitBox) 0.125%float
                (standingAt 1.5 "ArrowLeft")
                (THREE.mkObject3D (THREE.mkVector3 1.5 0 0) (Math.PI / 2)%float)
                true eq_refl eq_refl eq_refl) as (c1 & Hc1 & _ & Hblocked & _).
    vm_compute in Hc1. injection Hc1 as <-.
    rewrite Hblocked; [reflexivity|].
    exists (obstacleAt 2%float). split; [|vm_compute; reflexivity].
    simpl. auto.
Defined.

(** * Further properties of the controller *)

(** ** What the handlers leave alone *)

Section HandlerFrame.

Context {B : Type} (f : Game -> B).
Hypothesis f_calls : forall l g, f (with_calls l g) = f g.
Hypothesis f_currentAction : forall a g, f (with_currentAction a g) = f g.
Hypothesis f_velocity : forall v g, f (with_velocity v g) = f g.
Hypothesis f_isJumping : forall b g, f (with_isJumping b g) = f g.
Hypothesis f_keysPressed : forall k g, f (with_keysPressed k g) = f g.
Hypothesis f_position_x : forall v g c,
  character g = Some c ->
  f (with_character (Some (THREE.set_position_x v c)) g) = f g.
Hypothesis f_position_y : forall v g c,
  character g = Some c ->
  f (with_character (Some (THREE.set_position_y v c)) g) = f g.
Hypothesis f_rotation_y : forall v g c,
  character g = Some c ->
  f (with_character (Some (THREE.set_rotation_y v c)) g) = f g.

Lemma keeps_updateCharacterDirection : keeps f updateCharacterDirection.
Proof. unfold updateCharacterDirection. keeps_tac; auto. Qed.

Lemma keeps_onKeyDown key : keeps f (onKeyDown key).
Proof.
  unfold onKeyDown. keeps_tac;
    auto using keeps_initiateJump, keeps_switchAnimation,
      keeps_updateCharacterDirection.
Qed.

Lemma keeps_onKeyUp key : keeps f (onKeyUp key).
Proof.
  unfold onKeyUp. keeps_tac;
    auto using keeps_setAction, keeps_updateCharacterDirection.
Qed.

Lemma keeps_animate setFromObject delta :
  keeps f (animate setFromObject delta).
Proof.
  unfold animate. keeps_tac;
    auto using keeps_applyGravity, keeps_checkHorizontalCollision.
Qed.

End HandlerFrame.

Lemma keeps_onModelLoaded {B} (f : Game -> B) :
  (forall c g, f (with_character c g) = f g) ->
  (forall m g, f (with_mixer m g) = f g) ->
  keeps f onModelLoaded.
Proof. intros H1 H2. unfold onModelLoaded. keeps_tac; auto. Qed.

Lemma keeps_animationLoaded {B} (f : Game -> B) :
  (forall l g, f (with_calls l g) = f g) ->
  (forall a g, f (with_currentAction a g) = f g) ->
  (forall a g, f (with_idleAction a g) = f g) ->
  (forall a g, f (with_runAction a g) = f g) ->
  (forall a g, f (with_jumpAction a g) = f g) ->
  keeps f onIdleLoaded /\ keeps f onRunLoaded /\ keeps f onJumpLoaded.
Proof.
  intros H1 H2 H3 H4 H5.
  unfold onIdleLoaded, onRunLoaded, onJumpLoaded, clipAction.
  repeat split; keeps_tac; auto using keeps_play.
Qed.

(** The obstacles and the ground are fixed once the scene is built: no
    asset arrival, key event or frame changes the list of obstacle boxes
    or the ground box. *)
Theorem world_is_static (setFromObject : Object3D -> Box3)
    (es : list Event) (g : Game) :
  world (run setFromObject es g) = world g.
Proof.
  revert g; induction es as [|e es IH]; intros g; simpl; [done|].
  rewrite IH. unfold dispatch.
  destruct e; simpl.
  - by apply keeps_onModelLoaded.
  - by apply (keeps_animationLoaded world).
  - by apply (keeps_animationLoaded world).
  - by apply (keeps_animationLoaded world).
  - by apply keeps_onKeyDown.
  - by apply keeps_onKeyUp.
  - by apply keeps_animate.
Qed.

Lemma characterPosition_rotation v g c :
  character g = Some c ->
  characterPosition (with_character (Some (THREE.set_rotation_y v c)) g)
  = characterPosition g.
Proof. intros E. unfold characterPosition. simpl. by rewrite E. Qed.

Lemma characterRotation_position g c (p : Vector3) :
  character g = Some c ->
  characterRotation
    (with_character (Some (THREE.mkObject3D p (THREE.rotation_y c))) g)
  = characterRotation g.
Proof. intros E. unfold characterRotation. simpl. by rewrite E. Qed.

(** The key handlers never move the character: position is as it was
    after any key-down or key-up.  A key-up, and a key-down of any key
    other than ArrowUp, leaves velocity and the jumping flag alone as well.
    A frame, for its part, never turns the character. *)
Theorem handlers_keep_their_lane (setFromObject : Object3D -> Box3) :
  (forall key, keeps characterPosition (onKeyDown key))
  /\ (forall key, keeps characterPosition (onKeyUp key))
  /\ (forall key, keeps (fun g => (velocity g, isJumping g)) (onKeyUp key))
  /\ (forall key, key <> "ArrowUp" ->
        keeps (fun g => (velocity g, isJumping g)) (onKeyDown key))
  /\ (forall delta, keeps characterRotation (animate setFromObject delta)).
Proof.
  split; [|split; [|split; [|split]]].
  - intros key. apply keeps_onKeyDown; try done.
    intros v g c. apply characterPosition_rotation.
  - intros key. apply keeps_onKeyUp; try done.
    intros v g c. apply characterPosition_rotation.
  - intros key. by apply keeps_onKeyUp.
  - intros key Hkey. unfold onKeyDown.
    apply keeps_bind; [by apply keeps_modify|intros _].
    apply keeps_bind; [apply keeps_get|intros jumping].
    rewrite (bool_decide_eq_false_2 (key = "ArrowUp")) by done. simpl.
    apply keeps_bind; [apply keeps_ret|intros _].
    apply keeps_when, keeps_bind;
      [by apply keeps_switchAnimation
      |intros _; by apply keeps_updateCharacterDirection].
  - intros delta. apply keeps_animate; try done.
    + intros v g c. apply characterRotation_position.
    + intros v g c. apply characterRotation_position.
Qed.

Lemma handlers_keep_their_lane_witness :
  "ArrowLeft" <> "ArrowUp"
  /\ (velocity (globalsAfter (onKeyDown "ArrowLeft") (standingAt 2.5 "ArrowRight")),
      isJumping (globalsAfter (onKeyDown "ArrowLeft") (standingAt 2.5 "ArrowRight")))
     = (0%float, false).
Proof.
  split; [discriminate|].
  exact (proj1 (proj2 (proj2 (proj2 (handlers_keep_their_lane unitBox))))
           "ArrowLeft" ltac:(discriminate) (standingAt 2.5 "ArrowRight")).
Defined.

(** ** The key map *)

Lemma globalsAfter_modify_bind {A} (h : Game -> Game) (k : unit -> JS A) g :
  globalsAfter (modify h ≫= k) g = globalsAfter (k tt) (h g).
Proof. reflexivity. Qed.

Lemma onKeyDown_keysPressed key g :
  keysPressed (globalsAfter (onKeyDown key) g) = <[key := true]> (keysPressed g).
Proof.
  unfold onKeyDown. rewrite globalsAfter_modify_bind.
  match goal with
  | |- keysPressed (globalsAfter ?m ?g1) = _ =>
      change (keysPressed (globalsAfter m g1) = keysPressed g1);
      generalize g1; change (keeps keysPressed m)
  end.
  keeps_tac;
    first [ by apply keeps_initiateJump
          | by apply keeps_switchAnimation
          | by apply keeps_updateCharacterDirection ].
Qed.

Lemma onKeyUp_keysPressed key g :
  keysPressed (globalsAfter (onKeyUp key) g) = <[key := false]> (keysPressed g).
Proof.
  unfold onKeyUp. rewrite globalsAfter_modify_bind.
  match goal with
  | |- keysPressed (globalsAfter ?m ?g1) = _ =>
      change (keysPressed (globalsAfter m g1) = keysPressed g1);
      generalize g1; change (keeps keysPressed m)
  end.
  keeps_tac;
    first [ by apply keeps_setAction
          | by apply keeps_updateCharacterDirection ].
Qed.

(** For a key that is not a property name of [Object.prototype] (every
    key the keyboard reports), a key-down records the key as pressed and a
    key-up as released, whether or not the handler completes (the write
    comes first and an exception later in the handler does not undo it);
    every other such key keeps its state.  So a key reads as held exactly
    from its key-down to its key-up. *)
Theorem key_state_is_recorded (key : string) (g : Game) :
  plainKey key = true ->
  pressed key (globalsAfter (onKeyDown key) g) = true
  /\ pressed key (globalsAfter (onKeyUp key) g) = false
  /\ (forall other, plainKey other = true -> other <> key ->
        pressed other (globalsAfter (onKeyDown key) g) = pressed other g
        /\ pressed other (globalsAfter (onKeyUp key) g) = pressed other g).
Proof.
  intros _. unfold pressed. rewrite onKeyDown_keysPressed, onKeyUp_keysPressed.
  split; [by rewrite lookup_insert_eq|].
  split; [by rewrite lookup_insert_eq|].
  intros other _ Hne. by rewrite !lookup_insert_ne.
Qed.

Lemma key_state_is_recorded_witness :
  fst (onKeyDown "ArrowRight" idleOnly) = TypeError
  /\ pressed "ArrowRight" (globalsAfter (onKeyDown "ArrowRight") idleOnly) = true
  /\ pressed "ArrowLeft" (globalsAfter (onKeyDown "ArrowRight") idleOnly)
     = pressed "ArrowLeft" idleOnly.
Proof.
  split; [reflexivity|]. split.
  - apply (proj1 (key_state_is_recorded "ArrowRight" idleOnly eq_refl)).
  - apply (proj2 (proj2 (key_state_is_recorded "ArrowRight" idleOnly eq_refl))
             "ArrowLeft"); [reflexivity|discriminate].
Defined.

(** ** Landing *)

Lemma setAction_current (a : Action) (g : Game) :
  currentAction (globalsAfter (setAction (Some a)) g) = Some a.
Proof.
  unfold globalsAfter.
  destruct (decide (currentAction g = Some a)) as [E|E].
  - by rewrite (setAction_same g (Some a) E).
  - by rewrite (setAction_loaded g a E).
Qed.

(** [switchAnimation] where its guard passes. *)
Lemma switchAnimation_grounded (g : Game) :
  is_Some (character g) -> mixer g = true -> isJumping g = false ->
  switchAnimation g
  = setAction (if pressed "ArrowLeft" g || pressed "ArrowRight" g
               then runAction g else idleAction g) g.
Proof.
  intros Hc Hm Hj. unfold switchAnimation. js_unfold.
  rewrite (bool_decide_eq_true_2 _ Hc), Hm, Hj. simpl.
  by destruct (_ || _).
Qed.

(** [switchAnimation] where its guard fails. *)
Lemma switchAnimation_skipped (g : Game) :
  character g = None \/ mixer g = false \/ isJumping g = true ->
  switchAnimation g = (Return tt, g).
Proof.
  intros H. unfold switchAnimation. js_unfold.
  destruct H as [H|[H|H]]; rewrite H; simpl; [done| |].
  - by rewrite andb_false_r.
  - by rewrite andb_false_r.
Qed.

Lemma applyGravity_supported setFromObject delta g c :
  character g = Some c ->
  fst (supportFound (setFromObject c) delta c g) = true ->
  applyGravity setFromObject delta g
  = switchAnimation (landed (setFromObject c) delta c g).
Proof.
  intros Hc Hs. unfold applyGravity.
  unfold mbind at 1. unfold JS_bind, js_bind, get. rewrite Hc.
  unfold mbind at 1. unfold JS_bind, js_bind.
  rewrite (findSupport_spec (setFromObject c) delta g c Hc), Hs. simpl.
  reflexivity.
Qed.

Lemma supportFound_character characterBox delta c g :
  character g = Some c ->
  exists c', character (snd (supportFound characterBox delta c g)) = Some c'
             /\ THREE.x (THREE.position c') = THREE.x (THREE.position c)
             /\ THREE.z (THREE.position c') = THREE.z (THREE.position c)
             /\ THREE.rotation_y c' = THREE.rotation_y c.
Proof.
  intros Hc. unfold supportFound.
  destruct (_ && _); [by eexists|].
  destruct (lastSupporting _ _ _ _); by eexists.
Qed.

(** Ground contact is support, whatever the obstacles do. *)
Lemma ground_contact_supported characterBox delta c g :
  PrimFloat.leb (THREE.y (THREE.min characterBox))
                (THREE.y (THREE.max (ground g))) = true ->
  PrimFloat.leb (THREE.y (THREE.position c)) 0 = true ->
  fst (supportFound characterBox delta c g) = true.
Proof.
  intros H1 H2. unfold supportFound. rewrite H1.
  destruct (lastSupporting _ _ _ _) as [o|]; simpl.
  - destruct (PrimFloat.leb (THREE.y (THREE.max o)) 0); reflexivity.
  - rewrite H2. reflexivity.
Qed.

Lemma supportFound_frame characterBox delta c g :
  let g1 := snd (supportFound characterBox delta c g) in
  mixer g1 = mixer g /\ keysPressed g1 = keysPressed g
  /\ idleAction g1 = idleAction g /\ runAction g1 = runAction g
  /\ jumpAction g1 = jumpAction g /\ ground g1 = ground g.
Proof.
  unfold supportFound. destruct (_ && _); [done|].
  by destruct (lastSupporting _ _ _ _).
Qed.

Lemma landing_after_support setFromObject delta g c :
  character g = Some c ->
  fst (supportFound (setFromObject c) delta c g) = true ->
  isJumping (globalsAfter (applyGravity setFromObject delta) g) = false
  /\ velocity (globalsAfter (applyGravity setFromObject delta) g) = 0%float.
Proof.
  intros Hc Hs. unfold globalsAfter.
  rewrite (applyGravity_supported setFromObject delta g c Hc Hs).
  pose proof (keeps_switchAnimation (fun g => (isJumping g, velocity g))
                ltac:(done) ltac:(done)
                (landed (setFromObject c) delta c g)) as Hk.
  by injection Hk.
Qed.

(** A tick in which support is found ends the jump: the jumping flag is
    cleared and velocity is 0, also when the animation switch that follows
    fails; the character is where the support detection has put it.  With
    the mixer and the clips there, the tick completes and the current clip
    is the run clip when an arrow key is held and the idle clip
    otherwise. *)
Theorem landing_resets_and_reselects (setFromObject : Object3D -> Box3)
    (delta : float) (g : Game) (c : Object3D) :
  character g = Some c ->
  fst (supportFound (setFromObject c) delta c g) = true ->
  let g' := globalsAfter (applyGravity setFromObject delta) g in
  isJumping g' = false
  /\ velocity g' = 0%float
  /\ character g' = character (snd (supportFound (setFromObject c) delta c g))
  /\ (mixer g = true -> loaded g ->
      fst (applyGravity setFromObject delta g) = Return tt
      /\ currentAction g'
         = if pressed "ArrowLeft" g || pressed "ArrowRight" g
           then runAction g else idleAction g).
Proof.
  intros Hc Hs g'. unfold g', globalsAfter.
  rewrite (applyGravity_supported setFromObject delta g c Hc Hs).
  set (g2 := landed (setFromObject c) delta c g).
  pose proof (keeps_switchAnimation
                (fun g => (isJumping g, velocity g, character g))
                ltac:(done) ltac:(done) g2) as Hk.
  injection Hk as Hj Hv Hch. unfold globalsAfter in Hj, Hv, Hch.
  split; [done|]. split; [done|]. split; [done|].
  intros Hm ([i Hi] & [r Hr] & _).
  destruct (supportFound_character (setFromObject c) delta c g Hc)
    as (c' & Hc' & _).
  destruct (supportFound_frame (setFromObject c) delta c g)
    as (Hm' & Hk' & Hi' & Hr' & _).
  rewrite (switchAnimation_grounded g2); [|by exists c'|by rewrite <- Hm|done].
  assert (Hsel : (if pressed "ArrowLeft" g2 || pressed "ArrowRight" g2
                  then runAction g2 else idleAction g2)
                 = (if pressed "ArrowLeft" g || pressed "ArrowRight" g
                    then runAction g else idleAction g)).
  { unfold pressed, g2, landed. simpl. by rewrite Hk', Hi', Hr'. }
  rewrite Hsel.
  destruct (pressed "ArrowLeft" g || pressed "ArrowRight" g);
    rewrite ?Hr, ?Hi; split;
    first [apply setAction_returns | apply setAction_current].
Qed.

Lemma landing_resets_and_reselects_witness :
  let g' := globalsAfter (applyGravity unitBox 0.1%float) landingOnTwo in
  isJumping g' = false /\ velocity g' = 0%float
  /\ currentAction g' = Some IdleClip.
Proof.
  destruct (landing_resets_and_reselects unitBox 0.1%float landingOnTwo
              (THREE.mkObject3D (THREE.mkVector3 0 0.65 0) (Math.PI / 2)%float)
              eq_refl eq_refl) as (Hj & Hv & _ & Hsel).
  split; [exact Hj|]. split; [exact Hv|].
  destruct Hsel as [_ Hcur]; [reflexivity| |exact Hcur].
  repeat split; by eexists.
Defined.

(** ** Ground contact and jumping *)

Lemma animate_after_gravity {B} (f : Game -> B) setFromObject delta g :
  (forall v g c, character g = Some c ->
     f (with_character (Some (THREE.set_position_x v c)) g) = f g) ->
  f (globalsAfter (animate setFromObject delta) g)
  = f (globalsAfter (applyGravity setFromObject delta) g).
Proof.
  intros Hx. unfold animate, globalsAfter.
  unfold mbind at 1. unfold JS_bind, js_bind.
  destruct (applyGravity setFromObject delta g) as [[[]|] g1]; simpl; [|done].
  match goal with
  | |- f (snd (?m g1)) = _ =>
      change (f (globalsAfter m g1) = f g1); generalize g1;
      change (keeps f m)
  end.
  keeps_tac; auto using keeps_checkHorizontalCollision.
Qed.

Lemma onKeyDown_ArrowUp_character g :
  character (globalsAfter (onKeyDown "ArrowUp") g) = character g
  /\ ground (globalsAfter (onKeyDown "ArrowUp") g) = ground g.
Proof.
  assert (H : keeps (fun g => (character g, ground g)) (onKeyDown "ArrowUp")).
  { unfold onKeyDown.
    apply keeps_bind; [by apply keeps_modify|intros _].
    apply keeps_bind; [apply keeps_get|intros jumping].
    apply keeps_bind;
      [apply keeps_when; by apply keeps_initiateJump|intros _].
    change (bool_decide ("ArrowUp" = "ArrowLeft")
            || bool_decide ("ArrowUp" = "ArrowRight")) with false.
    apply keeps_ret. }
  specialize (H g). by injection H.
Qed.

(** The ground test of [applyGravity] does not look at velocity: while the
    character's bottom is at or below the ground's top and position.y is
    at or below zero, every tick counts as supported.  A jump started from
    such a position is therefore undone by the next frame, which clears
    the jumping flag and sets velocity back to 0 before the character has
    moved up. *)
Theorem jump_from_ground_contact_is_undone (setFromObject : Object3D -> Box3)
    (delta : float) (g : Game) (c : Object3D) :
  character g = Some c ->
  PrimFloat.leb (THREE.y (THREE.min (setFromObject c)))
                (THREE.y (THREE.max (ground g))) = true ->
  PrimFloat.leb (THREE.y (THREE.position c)) 0 = true ->
  let g' := run setFromObject [KeyDown "ArrowUp"; Frame delta] g in
  isJumping g' = false /\ velocity g' = 0%float.
Proof.
  intros Hc Hbottom Hy g'. unfold g', run. simpl. unfold dispatch. simpl.
  set (g1 := globalsAfter (onKeyDown "ArrowUp") g).
  destruct (onKeyDown_ArrowUp_character g) as [Hc1 Hg1]. fold g1 in Hc1, Hg1.
  rewrite Hc in Hc1. rewrite <- Hg1 in Hbottom.
  pose proof (animate_after_gravity (fun g => (isJumping g, velocity g))
                setFromObject delta g1 ltac:(done)) as Ha.
  injection Ha as -> ->.
  pose proof (ground_contact_supported (setFromObject c) delta c g1 Hbottom Hy) as Hs.
  destruct (landing_after_support setFromObject delta g1 c Hc1 Hs) as [Hj Hv].
  done.
Qed.

Lemma jump_from_ground_contact_is_undone_witness :
  let g' := run unitBox [KeyDown "ArrowUp"; Frame 0.016%float]
              (standingAt 2.5 "ArrowRight") in
  isJumping g' = false /\ velocity g' = 0%float.
Proof.
  apply (jump_from_ground_contact_is_undone unitBox 0.016%float
           (standingAt 2.5 "ArrowRight")
           (THREE.mkObject3D (THREE.mkVector3 2.5 0 0) (Math.PI / 2)%float));
    reflexivity.
Defined.

(** ** The order of the obstacles *)

Lemma existsb_Permutation {A} (p : A -> bool) (l l' : list A) :
  Permutation l l' -> existsb p l = existsb p l'.
Proof.
  induction 1 as [|a l l' _ IH|a b l|l l' l'' _ IH1 _ IH2]; simpl.
  - done.
  - by rewrite IH.
  - by destruct (p a), (p b).
  - by rewrite IH1.
Qed.

(** The blocking query does not depend on the order of the obstacles: two
    states with the same character and the same obstacles in another order
    give the same answer, namely whether some obstacle intersects the
    moved box (the support detection, in contrast, lets the last
    supporting obstacle win). *)
Theorem blocking_ignores_obstacle_order (setFromObject : Object3D -> Box3)
    (nextX : float) (g g' : Game) :
  character g' = character g ->
  Permutation (obstacles g) (obstacles g') ->
  fst (checkHorizontalCollision setFromObject nextX g')
  = fst (checkHorizontalCollision setFromObject nextX g)
  /\ (fst (checkHorizontalCollision setFromObject nextX g) = Return true <->
      exists c o, character g = Some c /\ In o (obstacles g)
                  /\ THREE.intersectsBox
                       (nextCharacterBox setFromObject c nextX) o = true).
Proof.
  intros Hc Hp. rewrite !checkHorizontalCollision_spec. simpl.
  unfold blockedAt. rewrite Hc. split.
  - destruct (character g); [|done].
    f_equal. symmetry. by apply existsb_Permutation.
  - destruct (character g) as [c|]; split.
    + intros [= H]. apply existsb_exists in H as (o & Ho & Hi). by exists c, o.
    + intros (c' & o & [= <-] & Ho & Hi). f_equal.
      apply existsb_exists. by exists o.
    + done.
    + by intros (c' & o & E & _).
Qed.

Lemma blocking_ignores_obstacle_order_witness :
  fst (checkHorizontalCollision unitBox 0.875%float (reversedScene 1.5 "ArrowLeft"))
  = fst (checkHorizontalCollision unitBox 0.875%float (standingAt 1.5 "ArrowLeft")).
Proof.
  apply (proj1 (blocking_ignores_obstacle_order unitBox 0.875%float
                  (standingAt 1.5 "ArrowLeft") (reversedScene 1.5 "ArrowLeft")
                  eq_refl (Permutation_rev createObstacles))).
Defined.

(** ** The arrival of the idle clip *)

(** The callback that receives the idle clip starts it and makes it
    current without going through [setAction]: a clip that is current and
    playing at that moment is not stopped, and two clips are playing
    afterwards. *)
Theorem idle_arrival_does_not_stop_current (g : Game) (c : Action) :
  mixer g = true ->
  currentAction g = Some c ->
  c <> IdleClip ->
  playingNow g c = true ->
  let g' := globalsAfter onIdleLoaded g in
  currentAction g' = Some IdleClip
  /\ playingNow g' IdleClip = true
  /\ playingNow g' c = true.
Proof.
  intros Hm Hcur Hne Hplay g'. unfold g', globalsAfter, onIdleLoaded, clipAction.
  js_unfold. rewrite Hm. simpl. unfold playingNow in *. simpl.
  rewrite !isPlaying_app. simpl. rewrite Hplay.
  split; [done|]. split; [by destruct (decide (IdleClip = IdleClip))|].
  destruct (decide (IdleClip = c)) as [E|_]; [by destruct Hne|done].
Qed.

Lemma idle_arrival_does_not_stop_current_witness :
  let g' := run unitBox runBeforeIdle (initialGame groundAtZero) in
  currentAction g' = Some IdleClip
  /\ playingNow g' IdleClip = true
  /\ playingNow g' RunClip = true.
Proof.
  apply (idle_arrival_does_not_stop_current
           (run unitBox [ModelLoaded; RunLoaded; KeyDown "ArrowRight"]
              (initialGame groundAtZero)) RunClip);
    first [reflexivity | discriminate].
Defined.

(** ** Key events and the animation *)

Lemma bind_returns {A C} (m : JS A) (k : A -> JS C) (g : Game) (a : A) :
  fst (m g) = Return a -> (m ≫= k) g = k a (globalsAfter m g).
Proof.
  unfold mbind, JS_bind, js_bind, globalsAfter.
  destruct (m g) as [[a'|] g1]; simpl; congruence.
Qed.

Lemma updateCharacterDirection_returns (g : Game) :
  fst (updateCharacterDirection g) = Return tt.
Proof.
  unfold updateCharacterDirection. js_unfold.
  destruct (character g) as [c|] eqn:Hc; simpl; [|done].
  destruct (pressed "ArrowLeft" g); cbv beta; rewrite ?Hc; [done|].
  destruct (pressed "ArrowRight" g); cbv beta; rewrite ?Hc; done.
Qed.

(** The direction update touches the character only. *)
Lemma updateCharacterDirection_only_character {B} (f : Game -> B) (g : Game) :
  (forall c g, f (with_character c g) = f g) ->
  f (globalsAfter updateCharacterDirection g) = f g.
Proof. intros H. by apply keeps_updateCharacterDirection. Qed.

(** [onKeyDown] for an arrow key. *)
Lemma onKeyDown_arrow (key : string) (g : Game) :
  key = "ArrowLeft" \/ key = "ArrowRight" ->
  onKeyDown key g
  = (switchAnimation ;; updateCharacterDirection)
      (with_keysPressed (<[key := true]> (keysPressed g)) g).
Proof. intros [-> | ->]; reflexivity. Qed.

(** [onKeyUp], with the direction update done. *)
Lemma onKeyUp_unfold (key : string) (g : Game) :
  let g2 := globalsAfter updateCharacterDirection
              (with_keysPressed (<[key := false]> (keysPressed g)) g) in
  onKeyUp key g
  = if negb (pressed "ArrowLeft" g2) && negb (pressed "ArrowRight" g2)
       && negb (isJumping g2)
    then setAction (idleAction g2) g2
    else (Return tt, g2).
Proof.
  intros g2. unfold onKeyUp.
  unfold mbind at 1. unfold JS_bind, js_bind, modify.
  rewrite (bind_returns _ _ _ tt (updateCharacterDirection_returns _)).
  fold g2. unfold mbind, JS_bind, js_bind, get, when. simpl.
  by destruct (_ && _ && _).
Qed.

(** A key-down of ArrowLeft or ArrowRight while the character is on its
    feet (model, mixer and clips loaded, not jumping) completes and makes
    the run clip current; a key-down of ArrowUp completes and makes the
    jump clip current; a key-up that leaves no arrow key held completes
    and makes the idle clip current, while a key-up that leaves an arrow
    key held changes nothing in the animation. *)
Theorem keys_select_the_clip (g : Game) :
  is_Some (character g) -> mixer g = true -> isJumping g = false ->
  loaded g ->
  (forall key, key = "ArrowLeft" \/ key = "ArrowRight" ->
     fst (onKeyDown key g) = Return tt
     /\ currentAction (globalsAfter (onKeyDown key) g) = runAction g)
  /\ (fst (onKeyDown "ArrowUp" g) = Return tt
      /\ currentAction (globalsAfter (onKeyDown "ArrowUp") g) = jumpAction g)
  /\ (forall key,
        let g' := globalsAfter (onKeyUp key) g in
        fst (onKeyUp key g) = Return tt
        /\ (pressed "ArrowLeft" g' = false -> pressed "ArrowRight" g' = false ->
            currentAction g' = idleAction g)
        /\ (pressed "ArrowLeft" g' = true \/ pressed "ArrowRight" g' = true ->
            animationView g' = animationView g)).
Proof.
  intros Hch Hm Hj ([i Hi] & [r Hr] & [j Hjump]).
  split; [|split].
  - intros key Hkey.
    set (g1 := with_keysPressed (<[key := true]> (keysPressed g)) g).
    assert (Hp : pressed "ArrowLeft" g1 || pressed "ArrowRight" g1 = true).
    { unfold pressed, g1. simpl.
      destruct Hkey as [-> | ->]; rewrite lookup_insert_eq; simpl;
        [done|by rewrite orb_true_r]. }
    assert (Hsw : switchAnimation g1 = setAction (Some r) g1).
    { rewrite (switchAnimation_grounded g1); [|done..]. by rewrite Hp, <- Hr. }
    unfold globalsAfter. rewrite (onKeyDown_arrow key g Hkey). fold g1.
    rewrite (bind_returns switchAnimation _ g1 tt)
      by (rewrite Hsw; apply setAction_returns).
    split; [apply updateCharacterDirection_returns|].
    pose proof (updateCharacterDirection_only_character currentAction
                  (globalsAfter switchAnimation g1) ltac:(done)) as Hcur.
    change (currentAction (globalsAfter updateCharacterDirection
                             (globalsAfter switchAnimation g1)) = runAction g).
    rewrite Hcur. unfold globalsAfter at 1. rewrite Hsw, Hr.
    apply setAction_current.
  - assert (E : onKeyDown "ArrowUp" g
                = initiateJump (with_keysPressed
                                  (<["ArrowUp" := true]> (keysPressed g)) g)).
    { unfold onKeyDown. js_unfold. simpl. rewrite Hj. simpl.
      by destruct (initiateJump _) as [[[]|] ?]. }
    unfold globalsAfter. rewrite E. unfold initiateJump. js_unfold. simpl.
    rewrite Hjump.
    destruct (bool_decide (currentAction g <> Some j)) eqn:Hd.
    + split; [apply setAction_returns|apply setAction_current].
    + apply bool_decide_eq_false in Hd. simpl. split; [done|].
      by destruct (decide (currentAction g = Some j)).
  - intros key g'.
    pose proof (onKeyUp_unfold key g) as E. simpl in E.
    set (g1 := with_keysPressed (<[key := false]> (keysPressed g)) g) in *.
    set (g2 := globalsAfter updateCharacterDirection g1) in *.
    assert (Hb : forall {B} (f : Game -> B),
               (forall c g, f (with_character c g) = f g) -> f g2 = f g1).
    { intros B f Hf. unfold g2.
      by rewrite (updateCharacterDirection_only_character f g1 Hf). }
    assert (Hkeys : keysPressed g' = keysPressed g2).
    { unfold g', g2.
      rewrite onKeyUp_keysPressed.
      by rewrite (updateCharacterDirection_only_character keysPressed g1). }
    pose proof (Hb _ animationView ltac:(done)) as Hview.
    change (animationView g1) with (animationView g) in Hview.
    assert (Hp : forall k, pressed k g' = pressed k g2)
      by (intros k; unfold pressed; by rewrite Hkeys).
    rewrite !Hp.
    unfold g', globalsAfter. rewrite E.
    rewrite (Hb _ isJumping ltac:(done)).
    change (isJumping g1) with (isJumping g). rewrite Hj.
    rewrite (Hb _ idleAction ltac:(done)).
    change (idleAction g1) with (idleAction g). rewrite Hi.
    simpl. rewrite andb_true_r.
    destruct (pressed "ArrowLeft" g2), (pressed "ArrowRight" g2); simpl.
    + split; [done|]. split; [done|]. by intros _.
    + split; [done|]. split; [done|]. by intros _.
    + split; [done|]. split; [done|]. by intros _.
    + split; [apply setAction_returns|].
      split; [intros _ _; apply setAction_current|].
      by intros [?|?].
Qed.

Lemma keys_select_the_clip_witness :
  currentAction (globalsAfter (onKeyDown "ArrowLeft") (standingAt 2.5 "ArrowRight"))
    = Some RunClip
  /\ currentAction (globalsAfter (onKeyUp "ArrowRight") (standingAt 2.5 "ArrowRight"))
    = Some IdleClip.
Proof.
  assert (H : is_Some (character (standingAt 2.5 "ArrowRight"))
              /\ loaded (standingAt 2.5 "ArrowRight")).
  { split; [by eexists|]. repeat split; by eexists. }
  destruct H as [Hc Hl].
  destruct (keys_select_the_clip (standingAt 2.5 "ArrowRight")
              Hc eq_refl eq_refl Hl) as (Hdown & _ & Hup).
  split.
  - apply (Hdown "ArrowLeft"). by left.
  - apply (Hup "ArrowRight"); reflexivity.
Defined.

(** While the jumping flag is set the arrow keys do not touch the
    animation: no key-down and no key-up makes a mixer call or changes the
    current clip, and each completes normally. *)
Theorem jump_owns_the_animation (g : Game) (key : string) :
  isJumping g = true ->
  (fst (onKeyDown key g) = Return tt
   /\ animationView (globalsAfter (onKeyDown key) g) = animationView g)
  /\ (fst (onKeyUp key g) = Return tt
      /\ animationView (globalsAfter (onKeyUp key) g) = animationView g).
Proof.
  intros Hj. split.
  - set (g1 := with_keysPressed (<[key := true]> (keysPressed g)) g).
    assert (E : onKeyDown key g
                = when (bool_decide (key = "ArrowLeft")
                        || bool_decide (key = "ArrowRight"))
                    updateCharacterDirection g1).
    { change (onKeyDown key g)
        with ((when (bool_decide (key = "ArrowUp") && negb (isJumping g))
                 initiateJump ;;
               when (bool_decide (key = "ArrowLeft")
                     || bool_decide (key = "ArrowRight"))
                 (switchAnimation ;; updateCharacterDirection)) g1).
      rewrite Hj, andb_false_r.
      change ((when false initiateJump ;; ?k) g1) with (k g1).
      unfold when.
      destruct (bool_decide (key = "ArrowLeft") || bool_decide (key = "ArrowRight"));
        [|done].
      assert (Hs : switchAnimation g1 = (Return tt, g1))
        by (apply switchAnimation_skipped; right; by right).
      rewrite (bind_returns switchAnimation _ g1 tt) by (by rewrite Hs).
      unfold globalsAfter. by rewrite Hs. }
    unfold globalsAfter. rewrite E. unfold when.
    destruct (bool_decide (key = "ArrowLeft") || bool_decide (key = "ArrowRight")).
    + split; [apply updateCharacterDirection_returns|].
      exact (updateCharacterDirection_only_character animationView g1
               ltac:(done)).
    + done.
  - pose proof (onKeyUp_unfold key g) as E. simpl in E.
    set (g1 := with_keysPressed (<[key := false]> (keysPressed g)) g) in *.
    unfold globalsAfter. rewrite E.
    rewrite (updateCharacterDirection_only_character isJumping g1) by done.
    change (isJumping g1) with (isJumping g). rewrite Hj, andb_false_r.
    split; [done|].
    exact (updateCharacterDirection_only_character animationView g1
             ltac:(done)).
Qed.

Lemma jump_owns_the_animation_witness :
  animationView (globalsAfter (onKeyDown "ArrowLeft") landingOnTwo)
  = animationView landingOnTwo.
Proof.
  apply (jump_owns_the_animation landingOnTwo "ArrowLeft" eq_refl).
Defined.

(** ** Before the assets arrive *)

(** While nothing is loaded (no character, no clip, no current clip) the
    key handlers complete normally.  A key-up only records the key.  A
    key-down records the key and, for ArrowUp with the jumping flag clear,
    also sets the flag and velocity [jumpSpeed]: the jump is taken although
    there is no character yet. *)
Theorem keys_before_the_assets (g : Game) (key : string) :
  character g = None -> currentAction g = None ->
  idleAction g = None -> jumpAction g = None ->
  onKeyUp key g
    = (Return tt, with_keysPressed (<[key := false]> (keysPressed g)) g)
  /\ onKeyDown key g
    = (Return tt,
       if bool_decide (key = "ArrowUp") && negb (isJumping g)
       then with_velocity jumpSpeed
              (with_isJumping true
                 (with_keysPressed (<[key := true]> (keysPressed g)) g))
       else with_keysPressed (<[key := true]> (keysPressed g)) g).
Proof.
  intros Hc Hcur Hi Hjump.
  assert (Hu : forall g0, character g0 = None ->
                 updateCharacterDirection g0 = (Return tt, g0)).
  { intros g0 H0. unfold updateCharacterDirection. js_unfold. by rewrite H0. }
  split.
  - pose proof (onKeyUp_unfold key g) as E. simpl in E.
    set (g1 := with_keysPressed (<[key := false]> (keysPressed g)) g) in *.
    rewrite E. clear E. unfold globalsAfter. rewrite (Hu g1 Hc). simpl.
    destruct (negb (pressed "ArrowLeft" g1) && negb (pressed "ArrowRight" g1)
              && negb (isJumping g)); [|reflexivity].
    rewrite Hi. by apply setAction_same.
  - set (g1 := with_keysPressed (<[key := true]> (keysPressed g)) g).
    change (onKeyDown key g)
      with ((when (bool_decide (key = "ArrowUp") && negb (isJumping g))
               initiateJump ;;
             when (bool_decide (key = "ArrowLeft")
                   || bool_decide (key = "ArrowRight"))
               (switchAnimation ;; updateCharacterDirection)) g1).
    destruct (bool_decide (key = "ArrowUp") && negb (isJumping g)) eqn:Hup.
    + assert (key = "ArrowUp") as ->.
      { apply andb_true_iff in Hup as [Hk _]. by apply bool_decide_eq_true in Hk. }
      unfold when, initiateJump. js_unfold. simpl. rewrite Hcur, Hjump.
      reflexivity.
    + change ((when false initiateJump ;; ?k) g1) with (k g1). unfold when.
      destruct (bool_decide (key = "ArrowLeft") || bool_decide (key = "ArrowRight"));
        [|done].
      assert (Hs : switchAnimation g1 = (Return tt, g1))
        by (apply switchAnimation_skipped; by left).
      rewrite (bind_returns switchAnimation _ g1 tt) by (by rewrite Hs).
      unfold globalsAfter. rewrite Hs. by apply Hu.
Qed.

Lemma keys_before_the_assets_witness :
  onKeyDown "ArrowUp" (initialGame groundAtZero)
  = (Return tt,
     with_velocity jumpSpeed
       (with_isJumping true
          (with_keysPressed {[ "ArrowUp" := true ]} (initialGame groundAtZero)))).
Proof.
  rewrite (proj2 (keys_before_the_assets (initialGame groundAtZero) "ArrowUp"
                    eq_refl eq_refl eq_refl eq_refl)).
  reflexivity.
Defined.

(** ** The order in which the assets arrive *)

Lemma assetsInOrder_view (g g' : Game) :
  assetsView g' = assetsView g -> assetsInOrder g -> assetsInOrder g'.
Proof.
  unfold assetsView, assetsInOrder. intros [= Hc -> -> -> ->].
  intros [[H1 H2] H3]. split; [|done].
  split; intros H.
  - apply H1 in H. apply (bool_decide_eq_true_2 _) in H.
    rewrite <- Hc in H. by apply bool_decide_eq_true in H.
  - apply H2. apply (bool_decide_eq_true_2 _) in H.
    rewrite Hc in H. by apply bool_decide_eq_true in H.
Qed.

Lemma assetsView_assign (h : Object3D -> Object3D) g c :
  character g = Some c ->
  assetsView (with_character (Some (h c)) g) = assetsView g.
Proof.
  intros E. unfold assetsView. simpl. rewrite E.
  by rewrite !bool_decide_eq_true_2 by (by eexists).
Qed.

Lemma dispatch_assetsInOrder setFromObject g e :
  assetsInOrder g -> assetsInOrder (dispatch setFromObject g e).
Proof.
  intros H. unfold dispatch.
  destruct e; simpl.
  - unfold assetsInOrder. simpl. split; [|done].
    split; [by eexists|done].
  - unfold globalsAfter, onIdleLoaded, clipAction. js_unfold.
    destruct (mixer g) eqn:Hm; simpl; [|done].
    destruct H as [H1 _]. split; [exact H1|by intros _].
  - unfold globalsAfter, onRunLoaded, clipAction. js_unfold.
    destruct (mixer g) eqn:Hm; simpl; [|done].
    destruct H as [H1 _]. split; [exact H1|by intros _].
  - unfold globalsAfter, onJumpLoaded, clipAction. js_unfold.
    destruct (mixer g) eqn:Hm; simpl; [|done].
    destruct H as [H1 _]. split; [exact H1|by intros _].
  - apply (assetsInOrder_view g); [|done].
    apply keeps_onKeyDown; try done; intros v g0 c; apply assetsView_assign.
  - apply (assetsInOrder_view g); [|done].
    apply keeps_onKeyUp; try done; intros v g0 c; apply assetsView_assign.
  - apply (assetsInOrder_view g); [|done].
    apply keeps_animate; try done; intros v g0 c E.
    + by apply (assetsView_assign (THREE.set_position_x v)).
    + by apply (assetsView_assign (THREE.set_position_y v)).
Qed.

(** Through any sequence of asset arrivals, key events and frames from
    start-up, the mixer exists exactly when the character does and a clip
    exists only when the mixer does: key events and frames neither load
    nor unload anything, and a clip callback needs the mixer. *)
Theorem assets_arrive_in_order (setFromObject : Object3D -> Box3)
    (groundBox : Box3) (es : list Event) :
  assetsInOrder (run setFromObject es (initialGame groundBox)).
Proof.
  assert (H : assetsInOrder (initialGame groundBox)).
  { split; [|by intros [[? ?]|[[? ?]|[? ?]]]].
    split; [done|by intros [? ?]]. }
  revert H. generalize (initialGame groundBox).
  induction es as [|e es IH]; intros g Hg; simpl; [done|].
  apply IH. by apply dispatch_assetsInOrder.
Qed.

(** ** Both arrow keys held *)

(** With both arrow keys held, a frame whose gravity phase completes first
    tries the move to the left and then, from wherever that has left the
    character, the move to the right; each is dropped on its own when the
    blocking query objects.  Where neither is blocked position.x ends at
    (x - 5 * delta) + 5 * delta. *)
Theorem both_arrows_move_left_then_right (setFromObject : Object3D -> Box3)
    (delta : float) (g g1 : Game) (c1 : Object3D) :
  applyGravity setFromObject delta g = (Return tt, g1) ->
  character g1 = Some c1 ->
  pressed "ArrowLeft" g1 = true ->
  pressed "ArrowRight" g1 = true ->
  let x := THREE.x (THREE.position c1) in
  let gL := moveUnlessBlocked setFromObject (x - 5 * delta)%float c1 g1 in
  exists cL,
    character gL = Some cL
    /\ animate setFromObject delta g
       = (Return tt,
          moveUnlessBlocked setFromObject
            (THREE.x (THREE.position cL) + 5 * delta)%float cL gL)
    /\ (blockedAt setFromObject (x - 5 * delta)%float g1 = false ->
        blockedAt setFromObject ((x - 5 * delta) + 5 * delta)%float gL = false ->
        positionX (globalsAfter (animate setFromObject delta) g)
        = Some ((x - 5 * delta) + 5 * delta)%float).
Proof.
  intros Hg Hc1 Hl Hr x gL.
  assert (E : animate setFromObject delta g
              = (Return tt,
                 match character gL with
                 | Some cL =>
                     moveUnlessBlocked setFromObject
                       (THREE.x (THREE.position cL) + 5 * delta)%float cL gL
                 | None => gL
                 end)).
  { unfold animate. unfold mbind at 1. unfold JS_bind, js_bind. rewrite Hg.
    js_unfold. rewrite Hl. cbv beta. rewrite Hc1.
    rewrite checkHorizontalCollision_spec.
    unfold gL, moveUnlessBlocked. fold x.
    destruct (blockedAt setFromObject (x - 5 * delta)%float g1); simpl.
    - rewrite Hr. cbv beta. rewrite Hc1, checkHorizontalCollision_spec.
      destruct (blockedAt _ _ g1); simpl; [done|by rewrite Hc1].
    - rewrite Hc1.
      change (pressed "ArrowRight" (with_character ?o g1))
        with (pressed "ArrowRight" g1).
      rewrite Hr. cbv beta. simpl.
      unfold blockedAt, nextCharacterBox, x. simpl.
      destruct (existsb _ _); reflexivity. }
  assert (HcL : exists cL, character gL = Some cL
                 /\ (blockedAt setFromObject (x - 5 * delta)%float g1 = false ->
                     THREE.x (THREE.position cL) = (x - 5 * delta)%float)).
  { unfold gL, moveUnlessBlocked.
    destruct (blockedAt setFromObject (x - 5 * delta)%float g1);
      [by exists c1|by eexists]. }
  destruct HcL as (cL & HcL & HxL).
  exists cL. split; [done|]. rewrite HcL in E. split; [done|].
  intros HbL HbR. unfold globalsAfter. rewrite E. simpl.
  rewrite (HxL HbL). unfold moveUnlessBlocked. rewrite HbR.
  reflexivity.
Qed.

Lemma both_arrows_move_left_then_right_witness :
  positionX (globalsAfter (animate unitBox 0.125%float) (bothHeldAt 2.5))
  = Some 2.5%float.
Proof.
  destruct (both_arrows_move_left_then_right unitBox 0.125%float
              (bothHeldAt 2.5)
              (globalsAfter (applyGravity unitBox 0.125%float) (bothHeldAt 2.5))
              (THREE.mkObject3D (THREE.mkVector3 2.5 0 0) (Math.PI / 2)%float)
              eq_refl eq_refl eq_refl eq_refl) as (cL & _ & _ & Hfree).
  rewrite Hfree; reflexivity.
Defined.

(** ** After a failed selection *)

(** A selection that fails on an undefined clip is not retried by asking
    for the current clip again: the failed [setAction] has stopped the
    current clip but still names it as current, so a later [setAction] with
    that clip is a no-op and the clip stays stopped. *)
Theorem failed_selection_leaves_clip_stopped (g : Game) (c : Action) :
  currentAction g = Some c ->
  let g1 := globalsAfter (setAction None) g in
  fst (setAction None g) = TypeError
  /\ currentAction g1 = Some c
  /\ playingNow g1 c = false
  /\ setAction (Some c) g1 = (Return tt, g1).
Proof.
  intros Hcur g1. unfold g1, globalsAfter.
  rewrite (setAction_undefined g c Hcur). simpl.
  split; [done|]. split; [done|]. split.
  - unfold playingNow. simpl. rewrite isPlaying_app. simpl.
    by destruct (decide (c = c)).
  - by apply setAction_same.
Qed.

Lemma failed_selection_leaves_clip_stopped_witness :
  let g1 := globalsAfter (setAction None) idleOnly in
  fst (setAction None idleOnly) = TypeError
  /\ currentAction g1 = Some IdleClip
  /\ playingNow g1 IdleClip = false
  /\ setAction (Some IdleClip) g1 = (Return tt, g1).
Proof.
  apply (failed_selection_leaves_clip_stopped idleOnly IdleClip).
  reflexivity.
Defined.

(** ** A free move that is lost *)

Lemma supportFound_currentAction characterBox delta c g :
  currentAction (snd (supportFound characterBox delta c g)) = currentAction g.
Proof.
  unfold supportFound. destruct (_ && _); [done|].
  by destruct (lastSupporting _ _ _ _).
Qed.

(** C7 (the code fails it): in a tick that finds support while an arrow
    key is held, the run clip is still undefined and some clip is current,
    the gravity phase ends in the [TypeError] of [setAction(runAction)];
    the frame is abandoned before the horizontal move, and position.x is
    what it was whether or not an obstacle is in the way. *)
Theorem C7_free_move_is_lost (setFromObject : Object3D -> Box3)
    (delta : float) (g : Game) (c : Object3D) (cur : Action) :
  character g = Some c ->
  mixer g = true ->
  runAction g = None ->
  currentAction g = Some cur ->
  pressed "ArrowLeft" g = true \/ pressed "ArrowRight" g = true ->
  fst (supportFound (setFromObject c) delta c g) = true ->
  fst (animate setFromObject delta g) = TypeError
  /\ positionX (globalsAfter (animate setFromObject delta) g)
     = Some (THREE.x (THREE.position c)).
Proof.
  intros Hc Hm Hrun Hcur Hkey Hs.
  set (g2 := landed (setFromObject c) delta c g).
  destruct (supportFound_character (setFromObject c) delta c g Hc)
    as (c' & Hc' & Hx & _).
  destruct (supportFound_frame (setFromObject c) delta c g)
    as (Hm' & Hk' & _ & Hr' & _).
  pose proof (supportFound_currentAction (setFromObject c) delta c g) as Hcur'.
  assert (Hp : pressed "ArrowLeft" g2 || pressed "ArrowRight" g2 = true).
  { unfold pressed, g2, landed. simpl. rewrite Hk'.
    fold (pressed "ArrowLeft" g). fold (pressed "ArrowRight" g).
    destruct Hkey as [-> | ->]; [done|by rewrite orb_true_r]. }
  assert (E : applyGravity setFromObject delta g
              = (TypeError, with_calls (calls g2 ++ [Stop cur]) g2)).
  { rewrite (applyGravity_supported setFromObject delta g c Hc Hs). fold g2.
    rewrite (switchAnimation_grounded g2);
      [|by exists c'|by rewrite <- Hm|done].
    rewrite Hp.
    change (runAction g2)
      with (runAction (snd (supportFound (setFromObject c) delta c g))).
    rewrite Hr', Hrun.
    apply setAction_undefined.
    change (currentAction g2)
      with (currentAction (snd (supportFound (setFromObject c) delta c g))).
    by rewrite Hcur'. }
  assert (Ea : animate setFromObject delta g
               = (TypeError, with_calls (calls g2 ++ [Stop cur]) g2)).
  { unfold animate. unfold mbind at 1. unfold JS_bind, js_bind.
    by rewrite E. }
  unfold globalsAfter. rewrite Ea.
  split; [done|].
  assert (Hc2 : character g2 = Some c') by exact Hc'.
  unfold positionX.
  change (character (snd (@TypeError unit,
                          with_calls (calls g2 ++ [Stop cur]) g2)))
    with (character g2).
  rewrite Hc2. simpl. by rewrite Hx.
Qed.

Lemma C7_free_move_is_lost_witness :
  (pressed "ArrowLeft" runClipMissing = false
   /\ pressed "ArrowRight" runClipMissing = true)
  /\ positionX runClipMissing = Some 0%float
  /\ (forall o, In o (obstacles runClipMissing) ->
        THREE.intersectsBox
          (nextCharacterBox unitBox
             (THREE.mkObject3D (THREE.mkVector3 0 0 0) (Math.PI / 2)%float)
             (0 + 5 * 0.3)%float) o = false)
  /\ fst (animate unitBox 0.3%float runClipMissing) = TypeError
  /\ positionX (globalsAfter (animate unitBox 0.3%float) runClipMissing)
     = Some 0%float.
Proof.
  split; [split; reflexivity|]. split; [reflexivity|]. split.
  - intros o Ho. simpl in Ho.
    repeat (destruct Ho as [<-|Ho]; [vm_compute; reflexivity|]).
    destruct Ho.
  - apply (C7_free_move_is_lost unitBox 0.3%float runClipMissing
             (THREE.mkObject3D (THREE.mkVector3 0 0 0) (Math.PI / 2)%float)
             IdleClip); try reflexivity.
    right. reflexivity.
Defined.
